(** * weather.py: the forecast fetcher, embedded and verified

    The development follows [src/weather.py]: the two coercion helpers
    [_safe_int] and [_safe_float], and [get_weather_data].

    Modelling conventions.
    - Python values are the values a JSON decoder produces ([pyval]).
    - Python [int] is [Z].  Text is [string], read as a sequence of code
      points 0..255; every such text percent-encodes.
    - A raised exception is a value of [res]; [try/except Exception] is a
      [match] on it.
    - The network and the console are an explicit trace of events; the
      remote service is a function from the request to what the client
      library answers.
    - Python [float] is IEEE binary64.  The quotient of two integers and the
      value of a decimal literal are rounded to nearest, ties to even, with
      the arithmetic carried out exactly on integers.
    - The interpreter's configurable limit on the number of digits of a
      converted integer is not modelled (as with the limit switched off). *)

From Stdlib Require Import ZArith List String Ascii Bool Lia Permutation.
Import ListNotations.

Local Open Scope string_scope.
Local Open Scope Z_scope.

(** ** Exceptions and the result monad *)

Inductive exn : Type :=
| AttributeError
| TypeError
| ValueError
| OverflowError
| ZeroDivisionError
| UnicodeEncodeError
| KeyError
| RequestException.

Inductive res (A : Type) : Type :=
| Ok (a : A)
| Raise (e : exn).

Arguments Ok {A} a.
Arguments Raise {A} e.

Definition bind {A B : Type} (m : res A) (k : A -> res B) : res B :=
  match m with
  | Ok a => k a
  | Raise e => Raise e
  end.

Notation "x <- m ;; k" := (bind m (fun x => k))
  (at level 61, m at next level, right associativity).

(** [try: return f(x) except Exception: return None] *)
Definition try_or_none {A : Type} (m : res A) : option A :=
  match m with
  | Ok a => Some a
  | Raise _ => None
  end.

Fixpoint mapM {A B : Type} (f : A -> res B) (l : list A) : res (list B) :=
  match l with
  | [] => Ok []
  | x :: xs => y <- f x ;; ys <- mapM f xs ;; Ok (y :: ys)
  end.

(** ** Text *)

Module Text.

Definition code (c : ascii) : Z := Z.of_N (N_of_ascii c).

Definition in_range (lo hi : Z) (c : ascii) : bool :=
  (lo <=? code c) && (code c <=? hi).

Definition is_digit (c : ascii) : bool := in_range 48 57 c.

Definition digit_value (c : ascii) : option Z :=
  if is_digit c then Some (code c - 48) else None.

(** White space as [str.strip] sees it (Py_UNICODE_ISSPACE), below 256. *)
Definition is_unicode_space (c : ascii) : bool :=
  in_range 9 13 c || in_range 28 32 c || (code c =? 133) || (code c =? 160).

(** White space as the numeric parsers see it: ASCII white space, and the
    two non-ASCII spaces, which are turned into blanks before parsing. *)
Definition is_numeric_space (c : ascii) : bool :=
  in_range 9 13 c || (code c =? 32) || (code c =? 133) || (code c =? 160).

Fixpoint lstrip (sp : ascii -> bool) (s : string) : string :=
  match s with
  | EmptyString => EmptyString
  | String c s' => if sp c then lstrip sp s' else s
  end.

Fixpoint rstrip (sp : ascii -> bool) (s : string) : string :=
  match s with
  | EmptyString => EmptyString
  | String c s' =>
      match rstrip sp s' with
      | EmptyString => if sp c then EmptyString else String c EmptyString
      | r => String c r
      end
  end.

(** [s.strip()] *)
Definition strip (s : string) : string :=
  rstrip is_unicode_space (lstrip is_unicode_space s).

Fixpoint repeat_char (c : ascii) (n : nat) : string :=
  match n with
  | O => EmptyString
  | S n' => String c (repeat_char c n')
  end.

Fixpoint contains (c : ascii) (s : string) : bool :=
  match s with
  | EmptyString => false
  | String d s' => Ascii.eqb c d || contains c s'
  end.

Fixpoint join (sep : string) (l : list string) : string :=
  match l with
  | [] => EmptyString
  | [x] => x
  | x :: xs => x ++ sep ++ join sep xs
  end.

Definition hex_digit (upper : bool) (n : Z) : ascii :=
  ascii_of_N (Z.to_N (if n <? 10 then 48 + n
                      else (if upper then 55 else 87) + n)).

(** Decimal digits of a non-negative integer, most significant first;
    [fuel] bounds the number of digits. *)
Fixpoint digits_fuel (fuel : nat) (n : Z) (acc : string) : string :=
  match fuel with
  | O => acc
  | S fuel' =>
      let acc' := String (ascii_of_N (Z.to_N (48 + n mod 10))) acc in
      if n <? 10 then acc' else digits_fuel fuel' (n / 10) acc'
  end.

Definition decimal (n : Z) : string :=
  digits_fuel (S (Z.to_nat (Z.log2 n))) n EmptyString.

Definition signed_decimal (z : Z) : string :=
  if z <? 0 then String "-" (decimal (- z)) else decimal z.

(** The number of digits in a text. *)
Fixpoint count_digits (s : string) : Z :=
  match s with
  | EmptyString => 0
  | String c s' => (if is_digit c then 1 else 0) + count_digits s'
  end.

(** The most digits an [int] may have in a conversion from or to decimal
    text: [sys.get_int_max_str_digits()], at its default. *)
Definition int_max_str_digits : Z := 4300.

End Text.

(** ** Text of any code points *)

(** A [str] as the list of its code points, which go up to 0x10FFFF and
    may be lone surrogates. *)
Module Unicode.
Import Text.

Fixpoint of_string (s : string) : list Z :=
  match s with
  | EmptyString => []
  | String c s' => code c :: of_string s'
  end.

(** White space as [str.strip] sees it (Py_UNICODE_ISSPACE). *)
Definition is_space (n : Z) : bool :=
  ((9 <=? n) && (n <=? 13)) || ((28 <=? n) && (n <=? 32))
  || (n =? 133) || (n =? 160) || (n =? 5760)
  || ((8192 <=? n) && (n <=? 8202)) || (n =? 8232) || (n =? 8233)
  || (n =? 8239) || (n =? 8287) || (n =? 12288).

Fixpoint lstrip (text : list Z) : list Z :=
  match text with
  | [] => []
  | n :: rest => if is_space n then lstrip rest else text
  end.

Fixpoint rstrip (text : list Z) : list Z :=
  match text with
  | [] => []
  | n :: rest =>
      match rstrip rest with
      | [] => if is_space n then [] else [n]
      | r => n :: r
      end
  end.

(** [text.strip()] *)
Definition strip (text : list Z) : list Z := rstrip (lstrip text).

Definition is_surrogate (n : Z) : bool := (55296 <=? n) && (n <=? 57343).

(** The UTF-8 bytes of a code point; a surrogate has none. *)
Definition utf8 (n : Z) : res (list Z) :=
  if n <? 128 then Ok [n]
  else if n <? 2048 then Ok [192 + n / 64; 128 + n mod 64]
  else if is_surrogate n then Raise UnicodeEncodeError
  else if n <? 65536
  then Ok [224 + n / 4096; 128 + (n / 64) mod 64; 128 + n mod 64]
  else Ok [240 + n / 262144; 128 + (n / 4096) mod 64;
           128 + (n / 64) mod 64; 128 + n mod 64].

(** [text.encode("utf-8", "strict")] *)
Fixpoint encode (text : list Z) : res (list Z) :=
  match text with
  | [] => Ok []
  | n :: rest => bs <- utf8 n ;; bs' <- encode rest ;; Ok (bs ++ bs')%list
  end.

End Unicode.

(** ** Integer literals: [int(s)] for a [str] argument, base 10 *)

Module IntLiteral.
Import Text.

(** [digit (["_"] digit)*] up to the end of the text. *)
Fixpoint digitpart (acc : Z) (s : string) {struct s} : option Z :=
  match s with
  | EmptyString => None
  | String c rest =>
      match digit_value c with
      | None => None
      | Some d =>
          let acc' := 10 * acc + d in
          match rest with
          | EmptyString => Some acc'
          | String u rest' =>
              if Ascii.eqb u "_" then digitpart acc' rest'
              else digitpart acc' rest
          end
      end
  end.

Definition signed (s : string) : option Z :=
  match s with
  | EmptyString => None
  | String c s' =>
      if Ascii.eqb c "+" then digitpart 0 s'
      else if Ascii.eqb c "-" then option_map Z.opp (digitpart 0 s')
      else digitpart 0 s
  end.

(** A literal with more digits than the limit is refused, leading zeros
    counted and underscores not. *)
Definition parse (s : string) : res Z :=
  let t := rstrip is_numeric_space (lstrip is_numeric_space s) in
  match signed t with
  | Some z => if int_max_str_digits <? count_digits t then Raise ValueError else Ok z
  | None => Raise ValueError
  end.

End IntLiteral.

(** ** IEEE binary64, on exact integers *)

Module Binary64.

(** The integer nearest to [a / b] for [0 < b], ties to even. *)
Definition round_half_even (a b : Z) : Z :=
  let q := a / b in
  let r := a mod b in
  if 2 * r <? b then q
  else if b <? 2 * r then q + 1
  else if Z.even q then q else q + 1.

(** [floor (log2 (a / b))] for [0 < a] and [0 < b]. *)
Definition floor_log2_ratio (a b : Z) : Z :=
  let d := Z.log2 a - Z.log2 b in
  if (if 0 <=? d then b * 2 ^ d <=? a else b <=? a * 2 ^ (- d))
  then d else d - 1.

(** A finite number [mant * 2 ^ expo]. *)
Record dyadic : Type := { mant : Z; expo : Z }.

(** The binary64 number nearest to [a / b] for [0 < a] and [0 < b]:
    53 significant bits, exponent of the last bit at least -1074, ties to
    even.  The range is not yet checked. *)
Definition nearest (a b : Z) : dyadic :=
  let e := Z.max (-1074) (floor_log2_ratio a b - 52) in
  {| mant := if 0 <=? e then round_half_even a (b * 2 ^ e)
             else round_half_even (a * 2 ^ (- e)) b;
     expo := e |}.

(** Signed version, for [b <> 0]. *)
Definition round_ratio (a b : Z) : dyadic :=
  if a =? 0 then {| mant := 0; expo := 0 |}
  else
    let x := nearest (Z.abs a) (Z.abs b) in
    {| mant := Z.sgn a * Z.sgn b * mant x; expo := expo x |}.

(** The rounded magnitude reaches [2 ^ 1024]: no binary64 number. *)
Definition too_large (x : dyadic) : bool :=
  2 ^ 1024 <=? Z.abs (mant x) * 2 ^ expo x.

Definition is_zero (x : dyadic) : bool := mant x =? 0.

(** [round(x)] of a float: nearest integer, ties to even. *)
Definition to_nearest_integer (x : dyadic) : Z :=
  if 0 <=? expo x then mant x * 2 ^ expo x
  else round_half_even (mant x) (2 ^ (- expo x)).

(** [int(x)] of a finite float: truncation towards zero. *)
Definition truncate (x : dyadic) : Z :=
  if 0 <=? expo x then mant x * 2 ^ expo x
  else Z.quot (mant x) (2 ^ (- expo x)).

End Binary64.

(** [a / b] on two Python ints: correctly rounded true division. *)
Definition true_divide (a b : Z) : res Binary64.dyadic :=
  if b =? 0 then Raise ZeroDivisionError
  else
    let x := Binary64.round_ratio a b in
    if Binary64.too_large x then Raise OverflowError else Ok x.

(** [round(x)] with one argument. *)
Definition py_round (x : Binary64.dyadic) : Z := Binary64.to_nearest_integer x.

(** ** Python floats as the decimal text that denotes them *)

(** A float is kept as the decimal number its [repr] shows, which
    determines it: [FDec neg m e10] is the binary64 number nearest to
    [m * 10 ^ e10], with sign [neg]. *)
Inductive pyfloat : Type :=
| FNan
| FInf (neg : bool)
| FDec (neg : bool) (m : N) (e10 : Z).

Module PyFloat.
Import Text.

Definition magnitude (m : N) (e10 : Z) : Binary64.dyadic :=
  if 0 <=? e10 then Binary64.round_ratio (Z.of_N m * 10 ^ e10) 1
  else Binary64.round_ratio (Z.of_N m) (10 ^ (- e10)).

(** The float a decimal literal denotes; beyond the range it is infinite. *)
Definition of_decimal (neg : bool) (m : N) (e10 : Z) : pyfloat :=
  if Binary64.too_large (magnitude m e10) then FInf neg else FDec neg m e10.

(** [bool(f)] *)
Definition truthy (f : pyfloat) : bool :=
  match f with
  | FNan => true
  | FInf _ => true
  | FDec _ m e10 => negb (Binary64.is_zero (magnitude m e10))
  end.

(** [int(f)] *)
Definition to_int (f : pyfloat) : res Z :=
  match f with
  | FNan => Raise ValueError
  | FInf _ => Raise OverflowError
  | FDec neg m e10 =>
      let x := magnitude m e10 in
      if Binary64.too_large x then Raise OverflowError
      else Ok ((if neg then -1 else 1) * Binary64.truncate x)
  end.

(** Significant digits without trailing zeros, and how many were dropped. *)
Fixpoint drop_trailing_zeros (fuel : nat) (m : Z) (dropped : Z) : Z * Z :=
  match fuel with
  | O => (m, dropped)
  | S fuel' =>
      if (m mod 10 =? 0) && negb (m =? 0)
      then drop_trailing_zeros fuel' (m / 10) (dropped + 1)
      else (m, dropped)
  end.

Definition split_at (n : Z) (s : string) : string * string :=
  (substring 0 (Z.to_nat n) s,
   substring (Z.to_nat n) (String.length s - Z.to_nat n) s).

(** [repr] in positional notation: the decimal point after [decpt] digits. *)
Definition positional (ds : string) (decpt : Z) : string :=
  let n := Z.of_nat (String.length ds) in
  if decpt <=? 0 then "0." ++ repeat_char "0" (Z.to_nat (- decpt)) ++ ds
  else if n <=? decpt then ds ++ repeat_char "0" (Z.to_nat (decpt - n)) ++ ".0"
  else let (a, b) := split_at decpt ds in a ++ "." ++ b.

(** [repr] in exponent notation: at least two exponent digits. *)
Definition scientific (ds : string) (e : Z) : string :=
  let frac := substring 1 (String.length ds - 1) ds in
  let ex := decimal (Z.abs e) in
  substring 0 1 ds
  ++ (if (String.length frac =? 0)%nat then "" else "." ++ frac)
  ++ "e" ++ (if e <? 0 then "-" else "+")
  ++ (if Z.abs e <? 10 then "0" ++ ex else ex).

(** [repr(f)], which is also [str(f)]. *)
Definition repr (f : pyfloat) : string :=
  match f with
  | FNan => "nan"
  | FInf neg => if neg then "-inf" else "inf"
  | FDec neg m e10 =>
      (if neg then "-" else "") ++
      (if (m =? 0)%N then "0.0"
       else
         let (m', z) := drop_trailing_zeros (N.to_nat (N.log2 m)) (Z.of_N m) 0 in
         let ds := decimal m' in
         let decpt := Z.of_nat (String.length ds) + z + e10 in
         if (-4 <? decpt) && (decpt <=? 16) then positional ds decpt
         else scientific ds (decpt - 1))
  end.

End PyFloat.

(** ** Float literals: [float(s)] for a [str] argument *)

Module FloatLiteral.
Import Text.

(** An underscore may only stand between two digits; they are removed. *)
Fixpoint drop_underscores (prev : ascii) (s : string) : option string :=
  match s with
  | EmptyString => if Ascii.eqb prev "_" then None else Some EmptyString
  | String c rest =>
      if Ascii.eqb c "_" then
        if is_digit prev then drop_underscores c rest else None
      else if Ascii.eqb prev "_" && negb (is_digit c) then None
      else option_map (String c) (drop_underscores c rest)
  end.

(** The leading run of digits: accumulated value, count, rest. *)
Fixpoint take_digits (acc : Z) (n : Z) (s : string) : Z * Z * string :=
  match s with
  | EmptyString => (acc, n, s)
  | String c rest =>
      match digit_value c with
      | Some d => take_digits (10 * acc + d) (n + 1) rest
      | None => (acc, n, s)
      end
  end.

Definition lower (c : ascii) : ascii :=
  if in_range 65 90 c then ascii_of_N (Z.to_N (code c + 32)) else c.

Fixpoint lowercase (s : string) : string :=
  match s with
  | EmptyString => EmptyString
  | String c s' => String (lower c) (lowercase s')
  end.

Definition exponent (s : string) : option Z :=
  match s with
  | EmptyString => Some 0
  | String c r =>
      if Ascii.eqb (lower c) "e" then
        let (neg, r') :=
          match r with
          | EmptyString => (false, r)
          | String g t =>
              if Ascii.eqb g "-" then (true, t)
              else if Ascii.eqb g "+" then (false, t)
              else (false, r)
          end in
        match take_digits 0 0 r' with
        | (v, n, EmptyString) =>
            if n =? 0 then None else Some (if neg then - v else v)
        | _ => None
        end
      else None
  end.

(** [[digits] "." digits | digits ["."]] followed by an optional exponent. *)
Definition number (neg : bool) (s : string) : option pyfloat :=
  let '(ip, ni, r1) := take_digits 0 0 s in
  let '(m, nf, r2) :=
    match r1 with
    | EmptyString => (ip, 0, r1)
    | String p r => if Ascii.eqb p "." then take_digits ip 0 r else (ip, 0, r1)
    end in
  if ni + nf =? 0 then None
  else
    match exponent r2 with
    | Some e => Some (PyFloat.of_decimal neg (Z.to_N m) (e - nf))
    | None => None
    end.

Definition unsigned (neg : bool) (s : string) : option pyfloat :=
  let l := lowercase s in
  if String.eqb l "inf" || String.eqb l "infinity" then Some (FInf neg)
  else if String.eqb l "nan" then Some FNan
  else number neg s.

Definition signed (s : string) : option pyfloat :=
  match s with
  | EmptyString => None
  | String c s' =>
      if Ascii.eqb c "+" then unsigned false s'
      else if Ascii.eqb c "-" then unsigned true s'
      else unsigned false s
  end.

Definition parse (s : string) : res pyfloat :=
  match drop_underscores "000"
          (rstrip is_numeric_space (lstrip is_numeric_space s)) with
  | Some t =>
      match signed t with
      | Some f => Ok f
      | None => Raise ValueError
      end
  | None => Raise ValueError
  end.

End FloatLiteral.

(** ** Python values *)

#[warnings="-register-all"]
Inductive pyval : Type :=
| PNone
| PBool (b : bool)
| PInt (z : Z)
| PFloat (f : pyfloat)
| PStr (s : string)
| PList (l : list pyval)
| PDict (kvs : list (string * pyval)).

(** The [location] argument: a value of the kind above, or a [str] given
    by its code points.  [Plain (PStr s)] is the [str] with the code
    points of [s], all below 256. *)
Inductive locarg : Type :=
| Plain (v : pyval)
| Wide (codepoints : list Z).

Coercion Plain : pyval >-> locarg.

Module Py.
Import Text.

(** [repr] of a [str]: quoted, with the escapes of the interpreter. *)
Definition escape (quote_char : ascii) (c : ascii) : string :=
  let n := code c in
  if Ascii.eqb c quote_char || (n =? 92) then String "\" (String c "")
  else if n =? 9 then "\t"
  else if n =? 10 then "\n"
  else if n =? 13 then "\r"
  else if (n <? 32) || ((127 <=? n) && (n <=? 160)) || (n =? 173)
  then "\x" ++ String (hex_digit false (n / 16)) (String (hex_digit false (n mod 16)) "")
  else String c "".

Fixpoint escape_all (quote_char : ascii) (s : string) : string :=
  match s with
  | EmptyString => EmptyString
  | String c s' => escape quote_char c ++ escape_all quote_char s'
  end.

Definition double_quote : ascii := "034"%char.

Definition str_repr (s : string) : string :=
  let q : ascii :=
    if contains "'" s && negb (contains double_quote s) then double_quote
    else "'"%char in
  String q (escape_all q s ++ String q "").

(** [repr(z)] of an [int]: refused when [z] has more digits than the
    limit. *)
Definition int_repr (z : Z) : res string :=
  if int_max_str_digits <? count_digits (decimal (Z.abs z))
  then Raise ValueError
  else Ok (signed_decimal z).

(** [repr(v)]; the items of a list or dict are rendered from left to
    right. *)
Fixpoint repr (v : pyval) : res string :=
  match v with
  | PNone => Ok "None"
  | PBool b => Ok (if b then "True" else "False")
  | PInt z => int_repr z
  | PFloat f => Ok (PyFloat.repr f)
  | PStr s => Ok (str_repr s)
  | PList l =>
      items <- (fix each (l : list pyval) : res (list string) :=
                  match l with
                  | [] => Ok []
                  | x :: xs => t <- repr x ;; ts <- each xs ;; Ok (t :: ts)
                  end) l ;;
      Ok ("[" ++ join ", " items ++ "]")
  | PDict kvs =>
      items <- (fix each (kvs : list (string * pyval)) : res (list string) :=
                  match kvs with
                  | [] => Ok []
                  | (k, x) :: rest =>
                      t <- repr x ;; ts <- each rest ;;
                      Ok ((str_repr k ++ ": " ++ t) :: ts)
                  end) kvs ;;
      Ok ("{" ++ join ", " items ++ "}")
  end.

(** [str(v)] *)
Definition str (v : pyval) : res string :=
  match v with
  | PStr s => Ok s
  | _ => repr v
  end.

(** [bool(v)] *)
Definition truthy (v : pyval) : bool :=
  match v with
  | PNone => false
  | PBool b => b
  | PInt z => negb (z =? 0)
  | PFloat f => PyFloat.truthy f
  | PStr s => negb (String.eqb s "")
  | PList l => match l with [] => false | _ => true end
  | PDict kvs => match kvs with [] => false | _ => true end
  end.

(** [a or b] *)
Definition or_else (a b : pyval) : pyval := if truthy a then a else b.

Definition is_none (v : pyval) : bool :=
  match v with PNone => true | _ => false end.

Fixpoint assoc (k : string) (kvs : list (string * pyval)) : option pyval :=
  match kvs with
  | [] => None
  | (k', v) :: rest => if String.eqb k k' then Some v else assoc k rest
  end.

(** [d.get(k)] on a dict. *)
Definition dict_get (kvs : list (string * pyval)) (k : string) : pyval :=
  match assoc k kvs with
  | Some v => v
  | None => PNone
  end.

(** [v.get(k)]: only a dict has the method. *)
Definition get (v : pyval) (k : string) : res pyval :=
  match v with
  | PDict kvs => Ok (dict_get kvs k)
  | _ => Raise AttributeError
  end.

(** [len(v)] *)
Definition len (v : pyval) : res Z :=
  match v with
  | PStr s => Ok (Z.of_nat (String.length s))
  | PList l => Ok (Z.of_nat (List.length l))
  | PDict kvs => Ok (Z.of_nat (List.length kvs))
  | _ => Raise TypeError
  end.

Definition slice_stop (n size : Z) : nat :=
  Z.to_nat (if n <? 0 then Z.max 0 (size + n) else n).

(** [v[:n]]; a dict refuses a slice as a key. *)
Definition slice_to (v : pyval) (n : Z) : res pyval :=
  match v with
  | PStr s => Ok (PStr (substring 0 (slice_stop n (Z.of_nat (String.length s))) s))
  | PList l => Ok (PList (firstn (slice_stop n (Z.of_nat (List.length l))) l))
  | _ => Raise TypeError
  end.

Fixpoint chars (s : string) : list pyval :=
  match s with
  | EmptyString => []
  | String c s' => PStr (String c "") :: chars s'
  end.

(** The items [for x in v] runs over. *)
Definition iter (v : pyval) : res (list pyval) :=
  match v with
  | PStr s => Ok (chars s)
  | PList l => Ok l
  | PDict kvs => Ok (map (fun kv => PStr (fst kv)) kvs)
  | _ => Raise TypeError
  end.

(** [int(v)] *)
Definition int (v : pyval) : res Z :=
  match v with
  | PBool b => Ok (if b then 1 else 0)
  | PInt z => Ok z
  | PFloat f => PyFloat.to_int f
  | PStr s => IntLiteral.parse s
  | _ => Raise TypeError
  end.

(** [float(s)] for a [str]. *)
Definition float_of_str (s : string) : res pyfloat := FloatLiteral.parse s.

(** [sum(l)] *)
Definition sum (l : list Z) : Z := fold_left Z.add l 0.

(** [max(l)] for a non-empty list. *)
Definition max (x : Z) (xs : list Z) : Z := fold_left Z.max xs x.

(** [[x for x in l if x is not None]] *)
Fixpoint not_none {A : Type} (l : list (option A)) : list A :=
  match l with
  | [] => []
  | Some x :: rest => x :: not_none rest
  | None :: rest => not_none rest
  end.

End Py.

(** ** [urllib.parse.quote] with its default [safe="/"] *)

Module Url.
Import Text.

Definition utf8 (c : ascii) : list Z :=
  let n := code c in
  if n <? 128 then [n] else [192 + n / 64; 128 + n mod 64].

Definition is_safe (b : Z) : bool :=
  ((65 <=? b) && (b <=? 90)) || ((97 <=? b) && (b <=? 122))
  || ((48 <=? b) && (b <=? 57))
  || (b =? 95) || (b =? 46) || (b =? 45) || (b =? 126) || (b =? 47).

Definition quote_byte (b : Z) : string :=
  if is_safe b then String (ascii_of_N (Z.to_N b)) ""
  else String "%" (String (hex_digit true (b / 16))
                     (String (hex_digit true (b mod 16)) "")).

(** [quote_from_bytes(bs)] *)
Definition quote_from_bytes (bs : list Z) : string :=
  String.concat "" (map quote_byte bs).

(** [quote(text)]: the text is encoded, which a lone surrogate makes
    fail, and the bytes are quoted. *)
Definition quote (text : list Z) : res string :=
  bs <- Unicode.encode text ;; Ok (quote_from_bytes bs).

(** [quote] on a text of code points 0..255, which always encodes. *)
Fixpoint quote_latin1 (s : string) : string :=
  match s with
  | EmptyString => EmptyString
  | String c s' => String.concat "" (map quote_byte (utf8 c)) ++ quote_latin1 s'
  end.

End Url.

(** ** The program *)

(** [_safe_int] *)
Definition _safe_int (value : pyval) : option Z :=
  try_or_none (s <- Py.str value ;; IntLiteral.parse s).

(** [_safe_float] *)
Definition _safe_float (value : pyval) : option pyfloat :=
  try_or_none (s <- Py.str value ;; Py.float_of_str s).

(** What [requests.get] hands back: the status and the decoded body. *)
Record Response : Type := { status_code : Z; json : res pyval }.

Definition raise_for_status (r : Response) : res unit :=
  if (400 <=? status_code r) && (status_code r <? 600)
  then Raise RequestException else Ok tt.

Inductive diagnostic : Type :=
| InvalidLocation
| ErrorFetching (exc : exn)
| UnexpectedShape.

Inductive event : Type :=
| EvPrint (d : diagnostic)
| EvGet (url : string) (timeout : Z).

(** One entry of the returned ["forecast"] list. *)
Record AggregatedDay : Type := {
  date : pyval;
  temp : option Z;
  humidity : option Z;
  wind : option Z;
  precipitation : option pyfloat
}.

(** The returned dict. *)
Record ForecastResult : Type := {
  location : locarg;
  forecast : list AggregatedDay
}.

(** [[_safe_int(h.get(key)) for h in hourly if h.get(key) is not None]] *)
Fixpoint readings (key : string) (hourly : list pyval) : res (list (option Z)) :=
  match hourly with
  | [] => Ok []
  | h :: rest =>
      c <- Py.get h key ;;
      if Py.is_none c then readings key rest
      else
        v <- Py.get h key ;;
        vs <- readings key rest ;;
        Ok (_safe_int v :: vs)
  end.

(** The body of the loop over the selected days. *)
Definition aggregate_day (day : pyval) : res AggregatedDay :=
  date <- Py.get day "date" ;;
  t <- Py.get day "avgtempC" ;;
  let temp_c := _safe_int t in
  p <- Py.get day "totalprecipMM" ;;
  let precip_mm := _safe_float p in
  h <- Py.get day "hourly" ;;
  let hourly := Py.or_else h (PList []) in
  hs <- Py.iter hourly ;;
  humidities <- readings "humidity" hs ;;
  ws <- Py.iter hourly ;;
  winds_kmph <- readings "windspeedKmph" ws ;;
  let valid_h := Py.not_none humidities in
  avg_humidity <-
    match valid_h with
    | [] => Ok None
    | _ =>
        q <- true_divide (Py.sum valid_h) (Z.of_nat (List.length valid_h)) ;;
        Ok (Some (py_round q))
    end ;;
  let valid_w := Py.not_none winds_kmph in
  let max_wind_kmph :=
    match valid_w with
    | [] => None
    | w :: rest => Some (Py.max w rest)
    end in
  Ok {| date := date; temp := temp_c; humidity := avg_humidity;
        wind := max_wind_kmph; precipitation := precip_mm |}.

(** The text of a [str] argument; none when [isinstance(location, str)]
    fails. *)
Definition text_of (location : locarg) : option (list Z) :=
  match location with
  | Plain (PStr s) => Some (Unicode.of_string s)
  | Plain _ => None
  | Wide text => Some text
  end.

(** The request URL for a location text. *)
Definition location_url (text : list Z) : res string :=
  q <- Url.quote (Unicode.strip text) ;;
  Ok ("https://wttr.in/" ++ q ++ "?format=j1").

(** The request URL for a location text of code points 0..255. *)
Definition request_url (location : string) : string :=
  "https://wttr.in/" ++ Url.quote_latin1 (Text.strip location) ++ "?format=j1".

(** The body of the first [try]. *)
Definition fetch (requests_get : string -> Z -> res Response) (url : string)
  : res pyval :=
  response <- requests_get url 10 ;;
  _ <- raise_for_status response ;;
  json response.

(** [max(1, int(forecast_days))], or 5 when that raises. *)
Definition requested_days (forecast_days : pyval) : Z :=
  match Py.int forecast_days with
  | Ok n => Z.max 1 n
  | Raise _ => 5
  end.

(** From the day-count resolution to the returned dict. *)
Definition build_forecast (location : locarg) (forecast_days days : pyval)
  : res (option ForecastResult) :=
  let num_days := requested_days forecast_days in
  n <- Py.len days ;;
  let num_days := Z.min num_days n in
  selected <- Py.slice_to days num_days ;;
  items <- Py.iter selected ;;
  forecast <- mapM aggregate_day items ;;
  Ok (Some {| location := location; forecast := forecast |}).

(** From the request on, the URL being built. *)
Definition request_and_reduce (requests_get : string -> Z -> res Response)
  (location : locarg) (forecast_days : pyval) (url : string)
  : list event * res (option ForecastResult) :=
  match fetch requests_get url with
  | Raise exc => ([EvGet url 10; EvPrint (ErrorFetching exc)], Ok None)
  | Ok data =>
      match (w <- Py.get data "weather" ;; Ok (Py.or_else w (PList []))) with
      | Raise e => ([EvGet url 10], Raise e)
      | Ok days =>
          if negb (Py.truthy days)
          then ([EvGet url 10; EvPrint UnexpectedShape], Ok None)
          else ([EvGet url 10], build_forecast location forecast_days days)
      end
  end.

(** [get_weather_data]: the events it causes, in order, and how it ends. *)
Definition get_weather_data (requests_get : string -> Z -> res Response)
  (location : locarg) (forecast_days : pyval)
  : list event * res (option ForecastResult) :=
  match text_of location with
  | None => ([EvPrint InvalidLocation], Ok None)
  | Some text =>
      match Unicode.strip text with
      | [] => ([EvPrint InvalidLocation], Ok None)
      | _ =>
          match location_url text with
          | Raise e => ([], Raise e)
          | Ok url => request_and_reduce requests_get location forecast_days url
          end
      end
  end.

(** ** Vocabulary of the specification *)

Definition is_dict (v : pyval) : bool :=
  match v with PDict _ => true | _ => false end.

(** The value an entry holds under a key; null when the key is absent. *)
Definition field (key : string) (entry : pyval) : pyval :=
  match entry with
  | PDict kvs => Py.dict_get kvs key
  | _ => PNone
  end.

(** The hourly values under [key] that are present, in upstream order. *)
Definition present (key : string) (hourly : list pyval) : list pyval :=
  filter (fun v => negb (Py.is_none v)) (map (field key) hourly).

(** The integer-coercible subset of a list of values, coerced. *)
Definition coercible (vs : list pyval) : list Z :=
  Py.not_none (map _safe_int vs).

Definition valid_readings (key : string) (hourly : list pyval) : list Z :=
  coercible (present key hourly).

(** The hourly list of a daily entry, as the loop body resolves it. *)
Definition hourly_of (day : pyval) : pyval :=
  Py.or_else (field "hourly" day) (PList []).

(** [k] is the integer nearest to [a / b], the even one of the two on a tie. *)
Definition nearest_even (a b k : Z) : Prop :=
  Z.abs (2 * a - 2 * k * b) < b
  \/ (Z.abs (2 * a - 2 * k * b) = b /\ Z.even k = true).

(** [k] is the mean of [zs] rounded to the nearest integer. *)
Definition rounded_mean (zs : list Z) (k : Z) : Prop :=
  nearest_even (Py.sum zs) (Z.of_nat (List.length zs)) k.

(** The mean of the readings, if there are any, is below 2^1024 - 2^970 in
    magnitude, from where on a quotient rounds to no float. *)
Definition mean_fits (zs : list Z) : bool :=
  match zs with
  | [] => true
  | _ =>
      2 * Z.abs (Py.sum zs)
      <? (2 ^ 1025 - 2 ^ 971) * Z.of_nat (List.length zs)
  end.

(** A daily entry of the expected shape: an object whose hourly value is
    falsy or a list of objects, with a humidity mean in the float range. *)
Definition daily_entry_ok (day : pyval) : bool :=
  is_dict day &&
  match hourly_of day with
  | PList hs => forallb is_dict hs && mean_fits (valid_readings "humidity" hs)
  | _ => false
  end.

(** The output the loop body builds for a daily entry with hourly list [hs]. *)
Definition summary (day : pyval) (hs : list pyval) : AggregatedDay :=
  {| date := field "date" day;
     temp := _safe_int (field "avgtempC" day);
     humidity :=
       match valid_readings "humidity" hs with
       | [] => None
       | zs => option_map py_round
                 (try_or_none (true_divide (Py.sum zs) (Z.of_nat (List.length zs))))
       end;
     wind :=
       match valid_readings "windspeedKmph" hs with
       | [] => None
       | w :: rest => Some (Py.max w rest)
       end;
     precipitation := _safe_float (field "totalprecipMM" day) |}.

(** A location the input check rejects: no string, or a blank one. *)
Definition blank_location (location : locarg) : bool :=
  match text_of location with
  | Some text => forallb Unicode.is_space text
  | None => true
  end.

(** The number of days the call reduces, given [n] upstream entries. *)
Definition resolved_days (forecast_days : pyval) (n : nat) : nat :=
  Z.to_nat (Z.min (requested_days forecast_days) (Z.of_nat n)).


(** A location that is no string, or whose stripped text holds no lone
    surrogate, so that it encodes as UTF-8. *)
Definition encodable (location : locarg) : bool :=
  match text_of location with
  | Some text => negb (existsb Unicode.is_surrogate (Unicode.strip text))
  | None => true
  end.

(** Mapping over a result. *)
Definition res_map {A B : Type} (f : A -> B) (m : res A) : res B :=
  match m with
  | Ok a => Ok (f a)
  | Raise e => Raise e
  end.

(** A number that is no integer: a float or a boolean. *)
Definition float_or_bool (v : pyval) : bool :=
  match v with
  | PFloat _ | PBool _ => true
  | _ => false
  end.

(** The characters an integer literal is made of. *)
Definition literal_char (c : ascii) : bool :=
  Text.is_digit c || Ascii.eqb c "_" || Ascii.eqb c "+" || Ascii.eqb c "-"
  || Text.is_numeric_space c.

(** A text holds one of the characters that set the text of a float apart
    from an integer literal. *)
Definition marks_float (s : string) : bool :=
  Text.contains "." s || Text.contains "e" s || Text.contains "n" s.

(** Ten to the length of a text. *)
Fixpoint weight (s : string) : Z :=
  match s with
  | EmptyString => 1
  | String _ s' => 10 * weight s'
  end.

(** The number a text of digits denotes, after the digits read so far. *)
Fixpoint digits_value (acc : Z) (s : string) : Z :=
  match s with
  | EmptyString => acc
  | String c s' => digits_value (10 * acc + (Text.code c - 48)) s'
  end.

Fixpoint all_digits (s : string) : bool :=
  match s with
  | EmptyString => true
  | String c s' => Text.is_digit c && all_digits s'
  end.

(** ** Sample inputs *)

Definition sample_hour (h w : pyval) : pyval :=
  PDict [("humidity", h); ("windspeedKmph", w)].

Definition sample_hourly : list pyval :=
  [sample_hour (PStr "50") (PStr "10");
   sample_hour (PInt 60) (PStr "25");
   sample_hour (PStr "70") (PInt 15)].

Definition sample_day : pyval :=
  PDict [("date", PStr "2024-05-01"); ("avgtempC", PStr "n/a");
         ("totalprecipMM", PStr "wet"); ("hourly", PList sample_hourly)].

Definition sample_days : list pyval := [sample_day; sample_day; PDict []].

Definition sample_body : list (string * pyval) :=
  [("weather", PList sample_days)].

(** A service that answers every request with status 200 and [data]. *)
Definition respond (data : pyval) : string -> Z -> res Response :=
  fun _ _ => Ok {| status_code := 200; json := Ok data |}.

(** One hourly entry whose humidity needs 54 bits. *)
Definition wide_hourly : list pyval := [PDict [("humidity", PInt (2 ^ 53 + 1))]].

Definition wide_day : pyval := PDict [("hourly", PList wide_hourly)].

(** ** Vocabulary of the further properties *)

(** How the loop body ends on a daily entry: the exception it raises, if any. *)
Definition day_failure (day : pyval) : option exn :=
  if negb (is_dict day) then Some AttributeError
  else
    match hourly_of day with
    | PList hs =>
        if negb (forallb is_dict hs) then Some AttributeError
        else if mean_fits (valid_readings "humidity" hs) then None
        else Some OverflowError
    | PStr _ | PDict _ => Some AttributeError
    | _ => Some TypeError
    end.

(** The hourly entries of a daily entry whose hourly value is a list. *)
Definition hourly_entries (day : pyval) : list pyval :=
  match hourly_of day with
  | PList hs => hs
  | _ => []
  end.

(** The exceptions that are raised outside every [try]. *)
Definition escapes (e : exn) : bool :=
  match e with
  | AttributeError | TypeError | OverflowError => true
  | _ => false
  end.


(** Every character of a text satisfies [p]. *)
Fixpoint all_chars (p : ascii -> bool) (s : string) : bool :=
  match s with
  | EmptyString => true
  | String c s' => p c && all_chars p s'
  end.

(** A character [quote] leaves as it is. *)
Definition safe_char (c : ascii) : bool := Url.is_safe (Text.code c).


(** A value that is neither a number nor text. *)
Definition no_number_or_text (v : pyval) : bool :=
  match v with
  | PNone | PBool _ | PList _ | PDict _ => true
  | _ => false
  end.

(** A digit or the decimal point. *)
Definition plain_char (c : ascii) : bool := Text.is_digit c || Ascii.eqb c ".".

(** * Checks of the model against the interpreter *)

Example int_literal_plain : IntLiteral.parse " 1_0 " = Ok 10.
Proof. reflexivity. Qed.

Example int_literal_leading_zeros : IntLiteral.parse "-007" = Ok (-7).
Proof. reflexivity. Qed.

Example int_literal_no_fraction : IntLiteral.parse "1.0" = Raise ValueError.
Proof. reflexivity. Qed.

Example int_literal_double_underscore : IntLiteral.parse "1__0" = Raise ValueError.
Proof. reflexivity. Qed.

Example decimal_text : Text.signed_decimal (-1203) = "-1203" /\ Text.decimal 0 = "0".
Proof. split; reflexivity. Qed.

Example half_even_ties :
  map (fun a => Binary64.round_half_even a 2) [1; 3; 5; -1; -3] = [0; 2; 2; 0; -2].
Proof. reflexivity. Qed.

Example true_divide_53_bits :
  option_map py_round (try_or_none (true_divide (2 ^ 53 + 1) 1)) = Some (2 ^ 53).
Proof. vm_compute. reflexivity. Qed.

Example true_divide_largest :
  true_divide (2 ^ 1024 - 2 ^ 970 - 1) 1
  = Ok {| Binary64.mant := 2 ^ 53 - 1; Binary64.expo := 971 |}
  /\ true_divide (2 ^ 1024 - 2 ^ 970) 1 = Raise OverflowError.
Proof. split; vm_compute; reflexivity. Qed.

Example true_divide_subnormal :
  map (fun ab => option_map Binary64.mant (try_or_none (true_divide (fst ab) (snd ab))))
      [(1, 2 ^ 1075); (1, 2 ^ 1074); (3, 2 ^ 1075); (1, 2 ^ 1075 - 1)]
  = [Some 0; Some 1; Some 2; Some 1].
Proof. vm_compute. reflexivity. Qed.

Example float_repr_samples :
  map PyFloat.repr
      [FDec false 505 (-1); FDec false 50 0; FDec false 1 16; FDec false 1 (-5);
       FDec false 1 (-4); FDec true 0 0; FDec false 15 299;
       FDec false 12345678901234568 1; FDec false 9999999999999998 0;
       FDec false 15 (-8); FDec false 5 (-324); FNan; FInf true]
  = ["50.5"; "50.0"; "1e+16"; "1e-05"; "0.0001"; "-0.0"; "1.5e+300";
     "1.2345678901234568e+17"; "9999999999999998.0"; "1.5e-07"; "5e-324";
     "nan"; "-inf"].
Proof. vm_compute. reflexivity. Qed.

Example float_literal_samples :
  map FloatLiteral.parse
      [".5"; "5."; "1_0.0_1e1_0"; "InFiNiTy"; "-nan"; "1e400"; " +1 "; "1E5"]
  = map Ok [FDec false 5 (-1); FDec false 5 0; FDec false 1001 8; FInf false;
            FNan; FInf false; FDec false 1 0; FDec false 1 5].
Proof. vm_compute. reflexivity. Qed.

Example float_literal_rejects :
  map FloatLiteral.parse
      ["."; "e5"; "1e"; "1e+"; "1._5"; "1_.5"; "infinit"; "0x10"; ""; "1 e5";
       "n/a"; "--1"; "1__0"; "_1"; "1_"]
  = repeat (Raise ValueError) 15.
Proof. vm_compute. reflexivity. Qed.

Example float_to_int_samples :
  map PyFloat.to_int [FDec false 57 (-1); FDec true 57 (-1);
                      FDec false 1152921504606847 3; FNan; FInf false]
  = [Ok 5; Ok (-5); Ok (2 ^ 60); Raise ValueError; Raise OverflowError].
Proof. vm_compute. reflexivity. Qed.

Example quote_samples :
  map Url.quote_latin1 ["Taipei"; "a b/c~d_e.f-g!*\"; String (ascii_of_N 233) ""]
  = ["Taipei"; "a%20b/c~d_e.f-g%21%2A%5C"; "%C3%A9"].
Proof. vm_compute. reflexivity. Qed.

Example str_samples :
  map Py.str [PBool true; PNone; PInt (-50); PFloat (FDec false 505 (-1));
              PStr "n/a"; PList [PInt 1; PStr "a"; PNone; PStr "\"];
              PDict [("a", PInt 1)]; PList []]
  = map Ok ["True"; "None"; "-50"; "50.5"; "n/a"; "[1, 'a', None, '\\']";
            "{'a': 1}"; "[]"].
Proof. vm_compute. reflexivity. Qed.


Example sample_call :
  get_weather_data (respond (PDict sample_body)) (PStr " New York ") (PStr "7")
  = ([EvGet "https://wttr.in/New%20York?format=j1" 10],
     Ok (Some
           {| location := PStr " New York ";
              forecast :=
                [{| date := PStr "2024-05-01"; temp := None; humidity := Some 60;
                    wind := Some 25; precipitation := None |};
                 {| date := PStr "2024-05-01"; temp := None; humidity := Some 60;
                    wind := Some 25; precipitation := None |};
                 {| date := PNone; temp := None; humidity := None;
                    wind := None; precipitation := None |}] |})).
Proof. vm_compute. reflexivity. Qed.

Example failed_request :
  get_weather_data (fun _ _ => Ok {| status_code := 503; json := Ok (PDict sample_body) |})
    (PStr "Oslo") (PInt 2)
  = ([EvGet "https://wttr.in/Oslo?format=j1" 10; EvPrint (ErrorFetching RequestException)],
     Ok None).
Proof. reflexivity. Qed.

(** * Facts *)

(** ** Facts about binary64 rounding *)

Section Rounding.
Import Binary64.

Lemma round_half_even_spec a b : 0 < b -> nearest_even a b (round_half_even a b).
Proof.
  intros Hb. unfold round_half_even, nearest_even.
  pose proof (Z.div_mod a b ltac:(lia)) as Hdm.
  pose proof (Z.mod_pos_bound a b Hb) as Hr.
  set (q := a / b) in *. set (r := a mod b) in *.
  destruct (Z.ltb_spec (2 * r) b).
  - left. nia.
  - destruct (Z.ltb_spec b (2 * r)).
    + left. nia.
    + destruct (Z.even q) eqn:Hq.
      * right. split; [nia | exact Hq].
      * right. split; [nia |].
        rewrite Z.even_add, Hq. reflexivity.
Qed.

Lemma nearest_even_unique a b k k' :
  0 < b -> nearest_even a b k -> nearest_even a b k' -> k = k'.
Proof.
  intros Hb H H'.
  assert (Hd : k' = k \/ k' = k + 1 \/ k' = k - 1).
  { destruct H as [H | [H _]], H' as [H' | [H' _]]; nia. }
  destruct Hd as [-> | [-> | ->]]; [reflexivity | |].
  - destruct H as [H | [H E]], H' as [H' | [H' E']]; try nia.
    rewrite Z.even_add, E in E'. discriminate.
  - destruct H as [H | [H E]], H' as [H' | [H' E']]; try nia.
    rewrite Z.even_sub, E in E'. discriminate.
Qed.

Lemma round_half_even_opp a b : 0 < b -> round_half_even (- a) b = - round_half_even a b.
Proof.
  intros Hb. apply (@nearest_even_unique (- a) b); [exact Hb | apply round_half_even_spec; exact Hb |].
  pose proof (round_half_even_spec a b Hb) as H. unfold nearest_even in *.
  rewrite Z.even_opp.
  replace (2 * - a - 2 * - round_half_even a b * b) with (- (2 * a - 2 * round_half_even a b * b)) by ring.
  rewrite Z.abs_opp. exact H.
Qed.


(* Rounding to a multiple of 1/T first does not change the nearest integer. *)
Lemma round_twice a b T :
  0 <= a -> 0 < b -> 2 <= T -> Z.even T = true ->
  b < T \/ 4 * a < b ->
  round_half_even (round_half_even (a * T) b) T = round_half_even a b.
Proof.
  intros Ha Hb HT HTe Hcase.
  pose proof (round_half_even_spec (a * T) b Hb) as Hm.
  set (m := round_half_even (a * T) b) in *.
  pose proof (round_half_even_spec m T ltac:(lia)) as Hk.
  set (k := round_half_even m T) in *.
  apply (nearest_even_unique a b); [exact Hb | | apply round_half_even_spec; exact Hb].
  unfold nearest_even in *.
  destruct Hcase as [Hlt | Hsmall].
  - assert (HF : Z.abs (2 * (a * T) - 2 * m * b) <= b) by (destruct Hm as [? | [? _]]; lia).
    assert (Hrel : (2 * a - 2 * k * b) * T = (2 * (a * T) - 2 * m * b) + b * (2 * m - 2 * k * T)) by ring.
    apply Z.even_spec in HTe. destruct HTe as [h ->].
    destruct Hk as [Hk | [Hk Hev]].
    + left.
      assert (Z.abs (2 * m - 2 * k * (2 * h)) <= 2 * h - 2) by lia.
      nia.
    + right. split; [| exact Hev]. nia.
  - assert (m = 0 \/ 0 < m /\ 2 * m < T).
    { apply Z.even_spec in HTe. destruct HTe as [h ->].
      destruct Hm as [Hm | [Hm _]]; nia. }
    assert (k = 0) by (destruct Hk as [Hk | [Hk _]]; nia).
    left. nia.
Qed.

Lemma floor_log2_ratio_le a b : 0 < a -> 0 < b -> floor_log2_ratio a b <= Z.log2 a.
Proof.
  intros Ha Hb. unfold floor_log2_ratio.
  pose proof (Z.log2_nonneg b).
  destruct (if 0 <=? Z.log2 a - Z.log2 b then _ else _); lia.
Qed.

Lemma floor_log2_ratio_lower a b :
  0 < a -> 0 < b ->
  let fl := floor_log2_ratio a b in
  (0 <= fl -> b * 2 ^ fl <= a) /\ (fl < 0 -> b <= a * 2 ^ (- fl)).
Proof.
  intros Ha Hb. unfold floor_log2_ratio.
  pose proof (Z.log2_spec a Ha) as [La Ua].
  pose proof (Z.log2_spec b Hb) as [Lb Ub].
  pose proof (Z.log2_nonneg a) as Na. pose proof (Z.log2_nonneg b) as Nb.
  set (la := Z.log2 a) in *. set (lb := Z.log2 b) in *. clearbody la lb.
  destruct (Z.leb_spec 0 (la - lb)) as [Hd | Hd].
  - destruct (Z.leb_spec (b * 2 ^ (la - lb)) a) as [Ht | Ht]; cbv zeta.
    + split; [intros _; exact Ht | lia].
    + split.
      * intros Hfl.
        replace (Z.succ lb) with (lb + 1) in Ub by lia.
        assert (E : 2 ^ la = 2 ^ (lb + 1) * 2 ^ (la - lb - 1)).
        { rewrite <- Z.pow_add_r by lia. f_equal. lia. }
        assert (0 < 2 ^ (la - lb - 1)) by (apply Z.pow_pos_nonneg; lia).
        nia.
      * intros Hfl. assert (la = lb) by lia. subst la.
        replace (- (lb - lb - 1)) with 1 by lia.
        replace (Z.succ lb) with (lb + 1) in Ub by lia.
        rewrite Z.pow_add_r in Ub by lia. change (2 ^ 1) with 2 in *. lia.
  - destruct (Z.leb_spec b (a * 2 ^ (- (la - lb)))) as [Ht | Ht]; cbv zeta.
    + split; [lia | intros _; exact Ht].
    + split; [lia |]. intros _.
      replace (Z.succ lb) with (lb + 1) in Ub by lia.
      assert (E : 2 ^ (lb + 1) = 2 ^ la * 2 ^ (- (la - lb - 1))).
      { rewrite <- Z.pow_add_r by lia. f_equal. lia. }
      assert (0 < 2 ^ (- (la - lb - 1))) by (apply Z.pow_pos_nonneg; lia).
      nia.
Qed.

Lemma pow2_even t : 1 <= t -> 2 <= 2 ^ t /\ Z.even (2 ^ t) = true.
Proof.
  intros Ht. replace t with (1 + (t - 1)) by lia.
  rewrite Z.pow_add_r by lia. change (2 ^ 1) with 2.
  assert (0 < 2 ^ (t - 1)) by (apply Z.pow_pos_nonneg; lia).
  split; [lia |]. rewrite Z.even_mul. reflexivity.
Qed.

(* Below 2^52 the rounded quotient has a negative exponent and rounds
   to the same integer as the exact quotient. *)
Lemma nearest_small a b :
  0 < a < 2 ^ 52 -> 0 < b ->
  expo (nearest a b) < 0 /\
  round_half_even (mant (nearest a b)) (2 ^ (- expo (nearest a b))) = round_half_even a b.
Proof.
  intros [Ha Ha52] Hb.
  pose proof (floor_log2_ratio_le a b Ha Hb) as Hle.
  pose proof (floor_log2_ratio_lower a b Ha Hb) as [Hnn Hneg].
  assert (Hl : Z.log2 a < 52) by (apply Z.log2_lt_pow2; lia).
  unfold nearest. set (fl := floor_log2_ratio a b) in *.
  set (e := Z.max (-1074) (fl - 52)).
  assert (He : e < 0) by lia.
  cbn [mant expo].
  destruct (Z.leb_spec 0 e) as [? | _]; [lia |].
  split; [exact He |].
  destruct (pow2_even (- e) ltac:(lia)) as [H2 Hev].
  apply round_twice; try lia; try assumption.
  destruct (Z.max_spec (-1074) (fl - 52)) as [[Hc Hm] | [Hc Hm]]; fold e in Hm; rewrite Hm.
  - (* normal *)
    left. replace (- (fl - 52)) with (52 - fl) by lia.
    destruct (Z_lt_le_dec fl 0) as [Hf | Hf].
    + specialize (Hneg Hf).
      replace (52 - fl) with (52 + - fl) by lia. rewrite Z.pow_add_r by lia.
      assert (0 < 2 ^ (- fl)) by (apply Z.pow_pos_nonneg; lia). nia.
    + specialize (Hnn Hf).
      assert (E : 2 ^ 52 = 2 ^ (52 - fl) * 2 ^ fl).
      { rewrite <- Z.pow_add_r by lia. f_equal. lia. }
      assert (0 < 2 ^ fl) by (apply Z.pow_pos_nonneg; lia).
      assert (0 < 2 ^ (52 - fl)) by (apply Z.pow_pos_nonneg; lia).
      nia.
  - (* subnormal *)
    change (- -1074) with 1074.
    destruct (Z_lt_le_dec b (2 ^ 1074)) as [Hs | Hs]; [left; exact Hs | right].
    assert (2 ^ 54 < 2 ^ 1074) by (apply Z.pow_lt_mono_r; lia).
    change (2 ^ 54) with (4 * 2 ^ 52) in *. lia.
Qed.
Lemma round_half_even_ge a b K : 0 < b -> K * b <= a -> K <= round_half_even a b.
Proof.
  intros Hb H. pose proof (round_half_even_spec a b Hb) as S.
  unfold nearest_even in S. destruct S as [S | [S _]]; nia.
Qed.

Lemma round_half_even_le a b K : 0 < b -> a <= K * b -> round_half_even a b <= K.
Proof.
  intros Hb H. pose proof (round_half_even_spec a b Hb) as S.
  unfold nearest_even in S. destruct S as [S | [S _]]; nia.
Qed.

Lemma round_half_even_ge_half a b K :
  0 < b -> Z.even K = true -> (2 * K - 1) * b <= 2 * a -> K <= round_half_even a b.
Proof.
  intros Hb HK H. pose proof (round_half_even_spec a b Hb) as S.
  unfold nearest_even in S.
  destruct (Z_lt_le_dec (round_half_even a b) K) as [Hlt | ]; [exfalso | assumption].
  set (k := round_half_even a b) in *.
  destruct S as [S | [S E]]; [nia |].
  assert (k = K - 1) by nia. subst k. rewrite H0 in E.
  rewrite Z.even_sub, HK in E. discriminate.
Qed.

Lemma round_half_even_lt_half a b K :
  0 < b -> 2 * a < (2 * K - 1) * b -> round_half_even a b < K.
Proof.
  intros Hb H. pose proof (round_half_even_spec a b Hb) as S.
  unfold nearest_even in S. destruct S as [S | [S _]]; nia.
Qed.

Lemma floor_log2_ratio_upper a b :
  0 < a -> 0 < b ->
  let fl := floor_log2_ratio a b in
  (0 <= fl + 1 -> a < b * 2 ^ (fl + 1)) /\ (fl + 1 < 0 -> a * 2 ^ (- (fl + 1)) < b).
Proof.
  intros Ha Hb. unfold floor_log2_ratio.
  pose proof (Z.log2_spec a Ha) as [La Ua].
  pose proof (Z.log2_spec b Hb) as [Lb Ub].
  pose proof (Z.log2_nonneg a) as Na. pose proof (Z.log2_nonneg b) as Nb.
  set (la := Z.log2 a) in *. set (lb := Z.log2 b) in *. clearbody la lb.
  replace (Z.succ la) with (la + 1) in Ua by lia.
  destruct (Z.leb_spec 0 (la - lb)) as [Hd | Hd].
  - destruct (Z.leb_spec (b * 2 ^ (la - lb)) a) as [Ht | Ht]; cbv zeta.
    + split; [intros _ | lia].
      assert (E : 2 ^ (la + 1) = 2 ^ lb * 2 ^ (la - lb + 1)).
      { rewrite <- Z.pow_add_r by lia. f_equal. lia. }
      assert (0 < 2 ^ (la - lb + 1)) by (apply Z.pow_pos_nonneg; lia).
      nia.
    + split; [intros _ | lia].
      replace (la - lb - 1 + 1) with (la - lb) by lia. lia.
  - destruct (Z.leb_spec b (a * 2 ^ (- (la - lb)))) as [Ht | Ht]; cbv zeta.
    + split.
      * intros H0. assert (la - lb = -1) by lia.
        replace (la - lb + 1) with 0 by lia. rewrite Z.pow_0_r.
        assert (E : lb = la + 1) by lia. rewrite E in Lb. lia.
      * intros H0.
        assert (E : 2 ^ lb = 2 ^ (la + 1) * 2 ^ (- (la - lb + 1))).
        { rewrite <- Z.pow_add_r by lia. f_equal. lia. }
        assert (0 < 2 ^ (- (la - lb + 1))) by (apply Z.pow_pos_nonneg; lia).
        nia.
    + split; [lia | intros _].
      replace (- (la - lb - 1 + 1)) with (- (la - lb)) by lia. lia.
Qed.

(** The rounded quotient leaves the range exactly from 2^1024 - 2^970 on. *)
Lemma nearest_too_large a b :
  0 < a -> 0 < b ->
  too_large (nearest a b) = true <-> (2 ^ 1025 - 2 ^ 971) * b <= 2 * a.
Proof.
  intros Ha Hb.
  pose proof (floor_log2_ratio_lower a b Ha Hb) as [Hlo _].
  pose proof (floor_log2_ratio_upper a b Ha Hb) as [Hup Hup'].
  unfold too_large, nearest.
  set (fl := floor_log2_ratio a b) in *. clearbody fl.
  set (e := Z.max (-1074) (fl - 52)). cbn [mant expo].
  assert (P1024 : 2 ^ 1024 = 2 ^ 53 * 2 ^ 971) by reflexivity.
  assert (P1025 : 2 ^ 1025 = 2 * 2 ^ 53 * 2 ^ 971) by reflexivity.
  assert (P53 : 2 ^ 53 = 2 * 2 ^ 52) by reflexivity.
  assert (Q971 : 0 < 2 ^ 971) by reflexivity.
  assert (Q52 : 0 < 2 ^ 52) by reflexivity.
  rewrite Z.leb_le.
  destruct (Z_lt_le_dec fl 1023) as [Hs | Hs].
  - (* small *)
    assert (Hlt : 2 * a < (2 ^ 1025 - 2 ^ 971) * b).
    { destruct (Z_lt_le_dec (fl + 1) 0) as [Hn | Hn].
      - specialize (Hup' Hn).
        assert (0 < 2 ^ (- (fl + 1))) by (apply Z.pow_pos_nonneg; lia).
        rewrite P1025, P53. nia.
      - specialize (Hup Hn).
        assert (2 ^ (fl + 1) <= 2 ^ 1023) by (apply Z.pow_le_mono_r; lia).
        change (2 ^ 1023) with (2 ^ 52 * 2 ^ 971) in *.
        rewrite P1025, P53. nia. }
    split; [| lia]. intros Hbig. exfalso.
    destruct (Z.leb_spec 0 e) as [He | He].
    + assert (e = fl - 52) by lia.
      assert (Hm : round_half_even a (b * 2 ^ e) <= 2 ^ 53).
      { assert (0 < 2 ^ e) by (apply Z.pow_pos_nonneg; lia).
        apply round_half_even_le; [nia |].
        specialize (Hup ltac:(lia)).
        replace (fl + 1) with (53 + e) in Hup by lia.
        rewrite Z.pow_add_r in Hup by lia. nia. }
      assert (0 <= round_half_even a (b * 2 ^ e)).
      { assert (0 < 2 ^ e) by (apply Z.pow_pos_nonneg; lia).
        apply round_half_even_ge; [nia | lia]. }
      rewrite Z.abs_eq in Hbig by lia.
      assert (2 ^ e <= 2 ^ 970) by (apply Z.pow_le_mono_r; lia).
      change (2 ^ 971) with (2 * 2 ^ 970) in *.
      assert (0 < 2 ^ 970) by reflexivity.
      assert (0 < 2 ^ e) by (apply Z.pow_pos_nonneg; lia).
      rewrite P1024 in Hbig. nia.
    + rewrite (Z.pow_neg_r 2 e) in Hbig by lia. rewrite Z.mul_0_r in Hbig.
      rewrite P1024 in Hbig. nia.
  - (* fl >= 1023 *)
    assert (He : e = fl - 52) by lia.
    destruct (Z.leb_spec 0 e) as [_ | ?]; [| lia].
    specialize (Hlo ltac:(lia)).
    assert (Pe : 0 < 2 ^ e) by (apply Z.pow_pos_nonneg; lia).
    assert (Efl : 2 ^ fl = 2 ^ 52 * 2 ^ e).
    { rewrite <- Z.pow_add_r by lia. f_equal. lia. }
    assert (Hm52 : 2 ^ 52 <= round_half_even a (b * 2 ^ e)).
    { apply round_half_even_ge; [nia |]. nia. }
    rewrite Z.abs_eq by lia.
    destruct (Z.eq_dec fl 1023) as [E | NE].
    + assert (e = 971) by lia. subst e. rewrite H in *.
      split.
      * intros Hbig.
        destruct (Z_lt_le_dec (2 * a) ((2 ^ 1025 - 2 ^ 971) * b)) as [Hc | Hc]; [| exact Hc].
        exfalso.
        assert (round_half_even a (b * 2 ^ 971) < 2 ^ 53).
        { apply round_half_even_lt_half; [nia |]. rewrite P1025 in Hc. nia. }
        rewrite P1024 in Hbig. nia.
      * intros Hc.
        assert (2 ^ 53 <= round_half_even a (b * 2 ^ 971)).
        { apply round_half_even_ge_half; [nia | reflexivity |]. rewrite P1025 in Hc. nia. }
        rewrite P1024. nia.
    + assert (972 <= e) by lia.
      assert (2 ^ 972 <= 2 ^ e) by (apply Z.pow_le_mono_r; lia).
      change (2 ^ 972) with (2 * 2 ^ 971) in *.
      split.
      * intros _. rewrite P1025, P53. nia.
      * intros _. rewrite P1024, P53. nia.
Qed.

End Rounding.

Lemma true_divide_exact s n :
  0 < n -> Z.abs s < 2 ^ 52 ->
  exists x, true_divide s n = Ok x /\ py_round x = Binary64.round_half_even s n.
Proof.
  intros Hn Hs. unfold true_divide, Binary64.round_ratio.
  destruct (Z.eqb_spec n 0) as [? | _]; [lia |].
  destruct (Z.eqb_spec s 0) as [-> | Hs0].
  - eexists. split; [reflexivity |].
    unfold py_round, Binary64.to_nearest_integer, Binary64.round_half_even. cbn [Binary64.mant Binary64.expo].
    rewrite Z.div_0_l, Zmod_0_l by lia. cbn.
    destruct (Z.ltb_spec 0 n); [reflexivity | lia].
  - rewrite (Z.abs_eq n) by lia.
    destruct (nearest_small (Z.abs s) n ltac:(lia) Hn) as [He Hr].
    set (x := Binary64.nearest (Z.abs s) n) in *.
    unfold Binary64.too_large. cbn [Binary64.mant Binary64.expo].
    rewrite (Z.pow_neg_r 2 (Binary64.expo x)) by exact He.
    rewrite Z.mul_0_r.
    eexists. split; [reflexivity |].
    unfold py_round, Binary64.to_nearest_integer. cbn [Binary64.mant Binary64.expo].
    destruct (Z.leb_spec 0 (Binary64.expo x)) as [? | _]; [lia |].
    assert (HT : 0 < 2 ^ (- Binary64.expo x)) by (apply Z.pow_pos_nonneg; lia).
    rewrite (Z.sgn_pos n) by lia.
    destruct (Z_lt_le_dec s 0) as [Hneg | Hpos].
    + rewrite (Z.sgn_neg s) by lia.
      replace (-1 * 1 * Binary64.mant x) with (- Binary64.mant x) by ring.
      rewrite round_half_even_opp by exact HT. rewrite Hr.
      rewrite (Z.abs_neq s) by lia.
      rewrite round_half_even_opp by exact Hn. ring.
    + rewrite (Z.sgn_pos s) by lia.
      replace (1 * 1 * Binary64.mant x) with (Binary64.mant x) by ring.
      rewrite Hr, (Z.abs_eq s) by lia. reflexivity.
Qed.

(** Integer division raises exactly when the quotient is out of range. *)
Lemma true_divide_range s n :
  0 < n ->
  (2 * Z.abs s < (2 ^ 1025 - 2 ^ 971) * n -> exists q, true_divide s n = Ok q)
  /\ ((2 ^ 1025 - 2 ^ 971) * n <= 2 * Z.abs s -> true_divide s n = Raise OverflowError).
Proof.
  intros Hn. unfold true_divide, Binary64.round_ratio.
  destruct (Z.eqb_spec n 0) as [? | _]; [lia |].
  destruct (Z.eqb_spec s 0) as [-> | Hs].
  - split; [intros _; eexists; reflexivity |].
    intros H. exfalso. change (Z.abs 0) with 0 in H.
    assert (0 < 2 ^ 1025 - 2 ^ 971) by reflexivity. nia.
  - rewrite (Z.abs_eq n) by lia.
    pose proof (nearest_too_large (Z.abs s) n ltac:(lia) Hn) as Hiff.
    set (x := Binary64.nearest (Z.abs s) n) in *.
    assert (E : Binary64.too_large
                  {| Binary64.mant := Z.sgn s * Z.sgn n * Binary64.mant x;
                     Binary64.expo := Binary64.expo x |}
                = Binary64.too_large x).
    { unfold Binary64.too_large. cbn [Binary64.mant Binary64.expo]. f_equal. f_equal.
      rewrite (Z.sgn_pos n) by lia.
      destruct (Z_lt_le_dec s 0); [rewrite (Z.sgn_neg s) by lia | rewrite (Z.sgn_pos s) by lia];
        lia. }
    rewrite E. destruct (Binary64.too_large x).
    + split; [| reflexivity]. intros H. exfalso.
      pose proof (proj1 Hiff eq_refl). lia.
    + split; [intros _; eexists; reflexivity |].
      intros H. apply Hiff in H. discriminate.
Qed.

(** ** Facts about the program *)

Lemma bind_ok {A B} (m : res A) (k : A -> res B) b :
  bind m k = Ok b -> exists a, m = Ok a /\ k a = Ok b.
Proof. destruct m as [a | e]; cbn; [eauto | discriminate]. Qed.

(** Splits a successful [bind] in [H] into its first result and the rest. *)
Ltac bind_inv H x Hx := apply bind_ok in H as (x & Hx & H).

Lemma mapM_ok_Forall2 {A B} (f : A -> res B) l r :
  mapM f l = Ok r -> Forall2 (fun x y => f x = Ok y) l r.
Proof.
  revert r. induction l as [| x xs IH]; cbn; intros r H.
  - injection H as <-. constructor.
  - bind_inv H y Hy. bind_inv H ys Hys.
    injection H as <-. constructor; auto.
Qed.

Lemma readings_dicts key hs :
  forallb is_dict hs = true ->
  readings key hs = Ok (map _safe_int (present key hs)).
Proof.
  induction hs as [| h hs IH]; cbn; [reflexivity |].
  intros H. apply andb_prop in H as [Hh Hhs].
  destruct h; try discriminate. cbn.
  unfold present in *. cbn.
  destruct (Py.is_none (Py.dict_get kvs key)); cbn.
  - apply IH. exact Hhs.
  - rewrite (IH Hhs). reflexivity.
Qed.

Lemma readings_ok_dicts key hs r :
  readings key hs = Ok r -> forallb is_dict hs = true.
Proof.
  revert r. induction hs as [| h hs IH]; cbn; intros r H; [reflexivity |].
  destruct h; try discriminate. cbn in *.
  destruct (Py.is_none (Py.dict_get kvs key)).
  - eauto.
  - apply bind_ok in H as (vs & Hvs & _). eauto.
Qed.

(** The mean fits exactly when the division of the loop body returns. *)
Lemma mean_fits_iff z zs :
  mean_fits (z :: zs) = true
  <-> exists q,
        true_divide (Py.sum (z :: zs)) (Z.of_nat (List.length (z :: zs))) = Ok q.
Proof.
  set (l := z :: zs).
  assert (Hn : 0 < Z.of_nat (List.length l)) by (subst l; cbn [List.length]; lia).
  destruct (true_divide_range (Py.sum l) (Z.of_nat (List.length l)) Hn) as [Hin Hout].
  change (mean_fits l)
    with (2 * Z.abs (Py.sum l) <? (2 ^ 1025 - 2 ^ 971) * Z.of_nat (List.length l)).
  destruct (Z.ltb_spec (2 * Z.abs (Py.sum l))
              ((2 ^ 1025 - 2 ^ 971) * Z.of_nat (List.length l))) as [H | H].
  - split; [intros _; exact (Hin H) | reflexivity].
  - split; [discriminate |]. intros [q Hq]. rewrite (Hout H) in Hq. discriminate.
Qed.

Lemma aggregate_day_ok day :
  daily_entry_ok day = true ->
  exists hs, hourly_of day = PList hs /\ aggregate_day day = Ok (summary day hs).
Proof.
  unfold daily_entry_ok. intros H. apply andb_prop in H as [Hd H].
  destruct day; try discriminate.
  destruct (hourly_of (PDict kvs)) as [| | | | | hs |] eqn:Hh; try discriminate.
  apply andb_prop in H as [Hhs Hfit].
  exists hs. split; [reflexivity |].
  unfold aggregate_day. cbn [Py.get bind].
  unfold hourly_of in Hh. cbn [field] in Hh. rewrite Hh. cbn [Py.iter bind].
  rewrite !readings_dicts by exact Hhs. cbn [bind].
  unfold summary. cbn [field].
  fold (coercible (present "humidity" hs)). fold (valid_readings "humidity" hs).
  fold (coercible (present "windspeedKmph" hs)). fold (valid_readings "windspeedKmph" hs).
  destruct (valid_readings "humidity" hs) as [| z zs] eqn:Hz.
  - cbn [bind]. reflexivity.
  - apply mean_fits_iff in Hfit as [q Hq]. rewrite Hq.
    cbn [bind try_or_none option_map]. reflexivity.
Qed.

Lemma aggregate_day_inv day a :
  aggregate_day day = Ok a -> daily_entry_ok day = true.
Proof.
  unfold aggregate_day, daily_entry_ok. intros H.
  destruct day; try discriminate. cbn [Py.get bind is_dict andb] in *.
  unfold hourly_of. cbn [field].
  set (hourly := Py.or_else (Py.dict_get kvs "hourly") (PList [])) in *.
  bind_inv H hs Hiter. bind_inv H hum Hhum.
  bind_inv H ws Hiter'. bind_inv H winds Hwinds. bind_inv H avg Havg.
  pose proof (readings_ok_dicts _ _ _ Hhum) as Hd.
  assert (Hl : hourly = PList hs).
  { subst hourly. unfold Py.or_else in *.
    destruct (Py.truthy (Py.dict_get kvs "hourly")) eqn:Ht;
      [| cbn in Hiter; congruence].
    destruct (Py.dict_get kvs "hourly") as [| b | z | f | s | l | d];
      cbn in Hiter; try discriminate; try congruence.
    - destruct s as [| c s]; [discriminate |].
      injection Hiter as <-. discriminate.
    - destruct d as [| [k v] d]; [discriminate |].
      injection Hiter as <-. discriminate. }
  rewrite Hl. rewrite Hd. cbn [andb].
  rewrite (readings_dicts "humidity" hs Hd) in Hhum. injection Hhum as <-.
  fold (coercible (present "humidity" hs)) in Havg.
  fold (valid_readings "humidity" hs) in Havg.
  destruct (valid_readings "humidity" hs) as [| z zs]; [reflexivity |].
  apply bind_ok in Havg as (q & Hq & _). apply mean_fits_iff. eauto.
Qed.

Lemma aggregate_day_summary day a :
  aggregate_day day = Ok a ->
  exists hs, hourly_of day = PList hs /\ forallb is_dict hs = true /\ a = summary day hs.
Proof.
  intros H. pose proof (aggregate_day_inv _ _ H) as Hok.
  destruct (aggregate_day_ok _ Hok) as (hs & Hh & Hs).
  exists hs. split; [exact Hh |]. split; [| congruence].
  unfold daily_entry_ok in Hok. rewrite Hh in Hok.
  apply andb_prop in Hok as [_ Hok]. apply andb_prop in Hok as [Hok _]. exact Hok.
Qed.

Lemma requested_days_pos fd : 1 <= requested_days fd.
Proof. unfold requested_days. destruct (Py.int fd); lia. Qed.

Lemma resolved_days_bounds fd n :
  (1 <= n)%nat -> (1 <= resolved_days fd n <= n)%nat.
Proof. unfold resolved_days. pose proof (requested_days_pos fd). lia. Qed.

Lemma slice_stop_pos n size : 0 <= n -> Py.slice_stop n size = Z.to_nat n.
Proof. unfold Py.slice_stop. intros H. destruct (Z.ltb_spec n 0); [lia | reflexivity]. Qed.

Lemma build_forecast_list loc fd days :
  days <> [] ->
  build_forecast loc fd (PList days)
  = bind (mapM aggregate_day (firstn (resolved_days fd (List.length days)) days))
         (fun fc => Ok (Some {| location := loc; forecast := fc |})).
Proof.
  intros Hne. unfold build_forecast. cbn [Py.len bind Py.slice_to].
  rewrite slice_stop_pos.
  - reflexivity.
  - pose proof (requested_days_pos fd). lia.
Qed.

(** ** Facts about text of any code points *)

Section UnicodeFacts.
Import Text.

Lemma code_bound c : 0 <= code c < 256.
Proof.
  unfold code. pose proof (N_ascii_bounded c). lia.
Qed.

Lemma is_space_code c : Unicode.is_space (code c) = is_unicode_space c.
Proof.
  pose proof (code_bound c) as H. unfold Unicode.is_space, is_unicode_space, in_range.
  repeat match goal with
  | |- context [?a =? ?b] =>
      lazymatch b with
      | 133 => fail
      | 160 => fail
      | _ => replace (a =? b) with false by (symmetry; apply Z.eqb_neq; lia)
      end
  end.
  replace (8192 <=? code c) with false by (symmetry; apply Z.leb_gt; lia).
  cbn [andb]. rewrite !orb_false_r. reflexivity.
Qed.

Lemma of_string_nil s : Unicode.of_string s = [] -> s = "".
Proof. destruct s; [reflexivity | discriminate]. Qed.

Lemma lstrip_of_string s :
  Unicode.lstrip (Unicode.of_string s)
  = Unicode.of_string (lstrip is_unicode_space s).
Proof.
  induction s as [| c s IH]; [reflexivity |].
  cbn [Unicode.of_string Unicode.lstrip lstrip]. rewrite is_space_code.
  destruct (is_unicode_space c); [exact IH | reflexivity].
Qed.

Lemma rstrip_of_string s :
  Unicode.rstrip (Unicode.of_string s)
  = Unicode.of_string (rstrip is_unicode_space s).
Proof.
  induction s as [| c s IH]; [reflexivity |].
  cbn [Unicode.of_string Unicode.rstrip rstrip]. rewrite IH, is_space_code.
  destruct (rstrip is_unicode_space s); cbn [Unicode.of_string];
    [destruct (is_unicode_space c) |]; reflexivity.
Qed.

Lemma strip_of_string s :
  Unicode.strip (Unicode.of_string s) = Unicode.of_string (strip s).
Proof.
  unfold Unicode.strip, strip. rewrite lstrip_of_string. apply rstrip_of_string.
Qed.

Lemma lstrip_spaces text :
  forallb Unicode.is_space text = true -> Unicode.lstrip text = [].
Proof.
  induction text as [| n text IH]; [reflexivity |]. cbn [forallb Unicode.lstrip].
  intros H. apply andb_prop in H as [-> H]. exact (IH H).
Qed.

Lemma rstrip_nil text :
  Unicode.rstrip text = [] -> forallb Unicode.is_space text = true.
Proof.
  induction text as [| n text IH]; [reflexivity |]. cbn [forallb Unicode.rstrip].
  destruct (Unicode.rstrip text); [| discriminate].
  destruct (Unicode.is_space n); [| discriminate]. intros _. exact (IH eq_refl).
Qed.

Lemma lstrip_rstrip_nil text :
  Unicode.rstrip (Unicode.lstrip text) = [] ->
  forallb Unicode.is_space text = true.
Proof.
  induction text as [| n text IH]; [reflexivity |]. cbn [forallb Unicode.lstrip].
  destruct (Unicode.is_space n) eqn:E; [exact IH |].
  intros H. apply rstrip_nil in H. cbn [forallb] in H. rewrite E in H. discriminate.
Qed.

(** A text is blank exactly when stripping leaves nothing. *)
Lemma strip_spaces text :
  Unicode.strip text = [] <-> forallb Unicode.is_space text = true.
Proof.
  split.
  - apply lstrip_rstrip_nil.
  - intros H. unfold Unicode.strip. rewrite (lstrip_spaces _ H). reflexivity.
Qed.

Lemma append_empty (x : string) : (x ++ "")%string = x.
Proof. induction x as [| c x IH]; [reflexivity |]. cbn. rewrite IH. reflexivity. Qed.

Lemma append_associative (x y z : string) :
  (x ++ (y ++ z) = (x ++ y) ++ z)%string.
Proof. induction x as [| c x IH]; [reflexivity |]. cbn. rewrite IH. reflexivity. Qed.

Lemma concat_cons (x : string) l :
  String.concat "" (x :: l) = (x ++ String.concat "" l)%string.
Proof.
  destruct l as [| y l]; cbn [String.concat]; [| reflexivity].
  symmetry. apply append_empty.
Qed.

Lemma concat_app (l1 l2 : list string) :
  (String.concat "" (l1 ++ l2) = String.concat "" l1 ++ String.concat "" l2)%string.
Proof.
  induction l1 as [| x l1 IH]; [reflexivity |].
  change ((x :: l1) ++ l2)%list with (x :: (l1 ++ l2))%list.
  rewrite !concat_cons, IH. apply append_associative.
Qed.

Lemma utf8_code c : Unicode.utf8 (code c) = Ok (Url.utf8 c).
Proof.
  pose proof (code_bound c) as H. unfold Unicode.utf8, Url.utf8.
  destruct (Z.ltb_spec (code c) 128); [reflexivity |].
  destruct (Z.ltb_spec (code c) 2048); [reflexivity | lia].
Qed.

(** On text of code points 0..255 [quote] never fails. *)
Lemma quote_of_string s :
  Url.quote (Unicode.of_string s) = Ok (Url.quote_latin1 s).
Proof.
  unfold Url.quote.
  assert (E : exists bs, Unicode.encode (Unicode.of_string s) = Ok bs
                         /\ Url.quote_from_bytes bs = Url.quote_latin1 s).
  { induction s as [| c s (bs & E & Q)]; [exists []; split; reflexivity |].
    cbn [Unicode.of_string Unicode.encode]. rewrite utf8_code, E. cbn [bind].
    eexists. split; [reflexivity |].
    unfold Url.quote_from_bytes in *. rewrite map_app, concat_app, Q. reflexivity. }
  destruct E as (bs & -> & <-). reflexivity.
Qed.

Lemma location_url_of_string s :
  location_url (Unicode.of_string s) = Ok (request_url s).
Proof.
  unfold location_url, request_url. rewrite strip_of_string, quote_of_string.
  reflexivity.
Qed.

(** A lone surrogate is what makes a location fail to encode. *)
Lemma encode_surrogates text :
  match Unicode.encode text with
  | Ok _ => existsb Unicode.is_surrogate text = false
  | Raise e => e = UnicodeEncodeError /\ existsb Unicode.is_surrogate text = true
  end.
Proof.
  induction text as [| n text IH]; [reflexivity |].
  cbn [Unicode.encode existsb]. unfold Unicode.utf8.
  destruct (Z.ltb_spec n 128) as [H1 | H1].
  { replace (Unicode.is_surrogate n) with false
      by (symmetry; unfold Unicode.is_surrogate; lia).
    cbn [bind orb]. destruct (Unicode.encode text); cbn [bind]; exact IH. }
  destruct (Z.ltb_spec n 2048) as [H2 | H2].
  { replace (Unicode.is_surrogate n) with false
      by (symmetry; unfold Unicode.is_surrogate; lia).
    cbn [bind orb]. destruct (Unicode.encode text); cbn [bind]; exact IH. }
  destruct (Unicode.is_surrogate n) eqn:Hs; [cbn [bind orb]; auto |].
  destruct (n <? 65536); cbn [bind orb];
    destruct (Unicode.encode text); cbn [bind]; exact IH.
Qed.

End UnicodeFacts.

(** ** The call, case by case *)

Lemma text_of_plain (v : pyval) text :
  text_of v = Some text -> exists s, v = PStr s /\ text = Unicode.of_string s.
Proof.
  destruct v as [| b | z | f | s | l | d]; try discriminate.
  cbn [text_of]. intros H. injection H as <-. eauto.
Qed.

(** How a call starts: with a location it rejects, with a location that
    does not encode, or with the request. *)
Lemma call_cases net loc fd :
  (blank_location loc = true
   /\ get_weather_data net loc fd = ([EvPrint InvalidLocation], Ok None))
  \/ (exists text e,
        text_of loc = Some text /\ blank_location loc = false
        /\ location_url text = Raise e
        /\ get_weather_data net loc fd = ([], Raise e))
  \/ (exists text url,
        text_of loc = Some text /\ blank_location loc = false
        /\ location_url text = Ok url
        /\ get_weather_data net loc fd = request_and_reduce net loc fd url).
Proof.
  unfold get_weather_data, blank_location.
  destruct (text_of loc) as [text |]; [| left; split; reflexivity].
  destruct (Unicode.strip text) as [| n rest] eqn:Hs.
  - left. split; [apply strip_spaces; exact Hs | reflexivity].
  - assert (Hb : forallb Unicode.is_space text = false).
    { destruct (forallb Unicode.is_space text) eqn:E; [| reflexivity].
      apply strip_spaces in E. congruence. }
    right. destruct (location_url text) as [url | e] eqn:Hu.
    + right. exists text, url. auto.
    + left. exists text, e. auto.
Qed.

(** A call with a location text of code points 0..255. *)
Lemma call_on_latin1 net s fd :
  get_weather_data net (PStr s) fd
  = if negb (Py.truthy (PStr (Text.strip s)))
    then ([EvPrint InvalidLocation], Ok None)
    else request_and_reduce net (PStr s) fd (request_url s).
Proof.
  unfold get_weather_data. cbn [text_of].
  rewrite location_url_of_string, strip_of_string. cbn [Py.truthy].
  destruct (Text.strip s); reflexivity.
Qed.

Lemma call_on_no_text net (v : pyval) fd :
  text_of v = None ->
  get_weather_data net v fd = ([EvPrint InvalidLocation], Ok None).
Proof. intros H. unfold get_weather_data. rewrite H. reflexivity. Qed.

Lemma reduce_on_days net loc fd url kvs days :
  fetch net url = Ok (PDict kvs) ->
  Py.dict_get kvs "weather" = PList days ->
  days <> [] ->
  request_and_reduce net loc fd url
  = ([EvGet url 10],
     bind (mapM aggregate_day (firstn (resolved_days fd (List.length days)) days))
          (fun fc => Ok (Some {| location := loc; forecast := fc |}))).
Proof.
  intros Hf Hw Hne. unfold request_and_reduce.
  rewrite Hf. cbn [Py.get bind]. rewrite Hw.
  destruct days as [| d ds]; [congruence |].
  cbn [Py.or_else Py.truthy negb].
  rewrite build_forecast_list by exact Hne. reflexivity.
Qed.

Lemma call_on_days net s fd kvs days :
  Py.truthy (PStr (Text.strip s)) = true ->
  fetch net (request_url s) = Ok (PDict kvs) ->
  Py.dict_get kvs "weather" = PList days ->
  days <> [] ->
  get_weather_data net (PStr s) fd
  = ([EvGet (request_url s) 10],
     bind (mapM aggregate_day (firstn (resolved_days fd (List.length days)) days))
          (fun fc => Ok (Some {| location := PStr s; forecast := fc |}))).
Proof.
  intros Hs Hf Hw Hne. rewrite call_on_latin1, Hs. cbn [negb].
  eapply reduce_on_days; eassumption.
Qed.

Lemma build_forecast_inv loc fd days r :
  Py.truthy days = true ->
  build_forecast loc fd days = Ok (Some r) ->
  exists l, days = PList l /\ l <> [].
Proof.
  intros Ht H. unfold build_forecast in H.
  pose proof (requested_days_pos fd) as Hp.
  destruct days as [| b | z | f | s | l | d]; try discriminate.
  - exfalso. destruct s as [| c s]; [discriminate |].
    cbn [Py.len bind Py.slice_to] in H.
    rewrite slice_stop_pos in H by (cbn [String.length]; lia).
    set (n := Z.to_nat _) in H.
    assert (Hn : n = S (Nat.pred n)) by (subst n; cbn [String.length]; lia).
    rewrite Hn in H. cbn in H. discriminate.
  - exists l. split; [reflexivity |]. destruct l; [discriminate | congruence].
Qed.

Lemma reduce_success_inv net loc fd url tr r :
  request_and_reduce net loc fd url = (tr, Ok (Some r)) ->
  exists kvs days fc,
    fetch net url = Ok (PDict kvs)
    /\ Py.dict_get kvs "weather" = PList days /\ days <> []
    /\ tr = [EvGet url 10]
    /\ mapM aggregate_day (firstn (resolved_days fd (List.length days)) days) = Ok fc
    /\ r = {| location := loc; forecast := fc |}.
Proof.
  unfold request_and_reduce. intros H.
  destruct (fetch net url) as [data | e] eqn:Hf; [| discriminate].
  destruct data as [| b | z | f | s' | l | kvs]; try discriminate.
  cbn [Py.get bind] in H.
  destruct (Py.truthy (Py.or_else (Py.dict_get kvs "weather") (PList []))) eqn:Ht;
    cbn [negb] in H; [| discriminate].
  injection H as <- H.
  destruct (build_forecast_inv _ _ _ _ Ht H) as (days & Hd & Hne).
  assert (Hw : Py.dict_get kvs "weather" = PList days).
  { unfold Py.or_else in Hd. destruct (Py.truthy (Py.dict_get kvs "weather")); [exact Hd |].
    injection Hd as <-. congruence. }
  rewrite Hd, build_forecast_list in H by exact Hne.
  apply bind_ok in H as (fc & Hfc & H). injection H as <-.
  exists kvs, days, fc. repeat split; auto.
Qed.

Lemma success_inv net (loc : pyval) fd tr r :
  get_weather_data net loc fd = (tr, Ok (Some r)) ->
  exists s kvs days fc,
    loc = PStr s /\ Py.truthy (PStr (Text.strip s)) = true
    /\ fetch net (request_url s) = Ok (PDict kvs)
    /\ Py.dict_get kvs "weather" = PList days /\ days <> []
    /\ tr = [EvGet (request_url s) 10]
    /\ mapM aggregate_day (firstn (resolved_days fd (List.length days)) days) = Ok fc
    /\ r = {| location := PStr s; forecast := fc |}.
Proof.
  intros H.
  destruct loc as [| b | z | f | s | l | d];
    try (rewrite call_on_no_text in H by reflexivity; discriminate).
  rewrite call_on_latin1 in H.
  destruct (Py.truthy (PStr (Text.strip s))) eqn:Hs; cbn [negb] in H; [| discriminate].
  destruct (reduce_success_inv _ _ _ _ _ _ H) as (kvs & days & fc & Hf & Hw & Hne & Ht & Hfc & Hr).
  exists s, kvs, days, fc. repeat split; auto.
Qed.

(** ** Facts about text *)

Section TextFacts.
Import Text.

Lemma lstrip_all sp s :
  forallb sp (list_ascii_of_string s) = true -> lstrip sp s = "".
Proof.
  induction s as [| c s IH]; cbn; [reflexivity |].
  intros H. apply andb_prop in H as [-> H]. auto.
Qed.

Lemma rstrip_empty sp s :
  rstrip sp s = "" -> forallb sp (list_ascii_of_string s) = true.
Proof.
  induction s as [| c s IH]; cbn; [reflexivity |].
  destruct (rstrip sp s); [| discriminate].
  destruct (sp c); [auto | discriminate].
Qed.

Lemma lstrip_rstrip_empty sp s :
  rstrip sp (lstrip sp s) = "" -> forallb sp (list_ascii_of_string s) = true.
Proof.
  induction s as [| c s IH]; cbn [lstrip]; [reflexivity |].
  destruct (sp c) eqn:Hc.
  - intros H. cbn. rewrite Hc. auto.
  - intros H. apply rstrip_empty in H. cbn in H. rewrite Hc in H. discriminate.
Qed.

Lemma strip_blank s :
  strip s = "" <-> forallb is_unicode_space (list_ascii_of_string s) = true.
Proof.
  unfold strip. split.
  - apply lstrip_rstrip_empty.
  - intros H. rewrite lstrip_all by exact H. reflexivity.
Qed.

Lemma contains_app c a b : contains c (a ++ b) = contains c a || contains c b.
Proof.
  induction a as [| d a IH]; cbn; [reflexivity |].
  rewrite IH. apply orb_assoc.
Qed.

Lemma contains_lstrip sp c s :
  sp c = false -> contains c s = true -> contains c (lstrip sp s) = true.
Proof.
  intros Hc. induction s as [| d s IH]; cbn; [auto |].
  intros H. destruct (sp d) eqn:Hd; [| exact H].
  apply IH. destruct (Ascii.eqb_spec c d) as [-> | _]; [congruence | exact H].
Qed.

Lemma contains_rstrip sp c s :
  sp c = false -> contains c s = true -> contains c (rstrip sp s) = true.
Proof.
  intros Hc. induction s as [| d s IH]; cbn; [auto |].
  intros H. apply orb_prop in H as [H | H].
  - apply Ascii.eqb_eq in H as <-.
    destruct (rstrip sp s); [rewrite Hc |]; cbn; rewrite Ascii.eqb_refl; reflexivity.
  - specialize (IH H). destruct (rstrip sp s); [discriminate |].
    cbn [contains]. cbn [contains] in IH. rewrite IH. apply orb_true_r.
Qed.

End TextFacts.

(** ** Facts about integer literals *)

Section IntLiteralFacts.
Import Text IntLiteral.

Lemma digitpart_chars n : forall s acc z c,
  (String.length s <= n)%nat ->
  digitpart acc s = Some z -> contains c s = true -> literal_char c = true.
Proof.
  induction n as [| n IH]; intros s acc z c Hn H Hc.
  - destruct s; [discriminate | cbn in Hn; lia].
  - destruct s as [| d s]; [discriminate |].
    cbn [digitpart] in H. unfold digit_value in H.
    destruct (is_digit d) eqn:Hd; [| discriminate].
    cbn [contains] in Hc. apply orb_prop in Hc as [Hc | Hc].
    { apply Ascii.eqb_eq in Hc as ->. unfold literal_char. rewrite Hd. reflexivity. }
    cbn [String.length] in Hn.
    destruct s as [| u s]; [discriminate |].
    destruct (Ascii.eqb_spec u "_") as [-> | Hu].
    + cbn [contains] in Hc. apply orb_prop in Hc as [Hc | Hc].
      * apply Ascii.eqb_eq in Hc as ->. reflexivity.
      * eapply (IH s); [cbn [String.length] in Hn; lia | exact H | exact Hc].
    + eapply (IH (String u s)); [lia | exact H | exact Hc].
Qed.

Lemma signed_chars s z c :
  signed s = Some z -> contains c s = true -> literal_char c = true.
Proof.
  destruct s as [| d s]; [discriminate |]. unfold signed.
  destruct (Ascii.eqb_spec d "+") as [-> | Hp].
  - intros H Hc. cbn [contains] in Hc. apply orb_prop in Hc as [Hc | Hc].
    + apply Ascii.eqb_eq in Hc as ->. reflexivity.
    + eapply digitpart_chars; eauto.
  - destruct (Ascii.eqb_spec d "-") as [-> | Hm].
    + intros H Hc. cbn [contains] in Hc. apply orb_prop in Hc as [Hc | Hc].
      * apply Ascii.eqb_eq in Hc as ->. reflexivity.
      * destruct (digitpart 0 s) eqn:E; [| discriminate].
        eapply digitpart_chars; eauto.
    + intros H Hc. eapply digitpart_chars; eauto.
Qed.

(** A text with a character no integer literal holds does not parse. *)
Lemma parse_rejects c s :
  literal_char c = false -> contains c s = true -> parse s = Raise ValueError.
Proof.
  intros Hl Hc. unfold parse.
  destruct (signed _) as [z |] eqn:E; [| reflexivity].
  assert (Hsp : is_numeric_space c = false).
  { unfold literal_char in Hl. apply orb_false_elim in Hl as [_ Hl]. exact Hl. }
  assert (literal_char c = true); [| congruence].
  eapply signed_chars; [exact E |].
  apply contains_rstrip; [exact Hsp |]. apply contains_lstrip; assumption.
Qed.

(** The text of a non-negative integer parses back to it. *)
Lemma digit_char d : 0 <= d < 10 ->
  let c := ascii_of_N (Z.to_N (48 + d)) in is_digit c = true /\ code c = 48 + d.
Proof.
  intros H c. assert (E : code c = 48 + d).
  { unfold c, code. rewrite N_ascii_embedding by lia. lia. }
  split; [| exact E]. unfold is_digit, in_range. rewrite E. lia.
Qed.

Lemma digit_not_underscore c : is_digit c = true -> Ascii.eqb c "_" = false.
Proof.
  intros H. destruct (Ascii.eqb_spec c "_") as [-> | ]; [discriminate | reflexivity].
Qed.

Lemma digitpart_digits s : forall acc,
  s <> "" -> all_digits s = true -> digitpart acc s = Some (digits_value acc s).
Proof.
  induction s as [| c s IH]; intros acc Hne Hd; [congruence |].
  cbn [all_digits] in Hd. apply andb_prop in Hd as [Hc Hs].
  cbn [digitpart digits_value]. unfold digit_value. rewrite Hc.
  destruct s as [| u s']; [reflexivity |].
  assert (Hu : is_digit u = true) by (cbn [all_digits] in Hs; apply andb_prop in Hs; tauto).
  rewrite (digit_not_underscore u Hu). apply IH; [discriminate | exact Hs].
Qed.

Lemma digits_value_weight s : forall b,
  digits_value b s = b * weight s + digits_value 0 s.
Proof.
  induction s as [| c s IH]; intros b; cbn [digits_value weight]; [ring |].
  rewrite (IH (10 * b + (code c - 48))), (IH (10 * 0 + (code c - 48))). ring.
Qed.

Lemma digits_fuel_spec fuel : forall n acc,
  0 <= n < 2 ^ Z.of_nat fuel -> (0 < fuel)%nat -> all_digits acc = true ->
  digits_fuel fuel n acc <> ""
  /\ all_digits (digits_fuel fuel n acc) = true
  /\ digits_value 0 (digits_fuel fuel n acc) = n * weight acc + digits_value 0 acc.
Proof.
  induction fuel as [| fuel IH]; intros n acc Hn Hf Hacc; [lia |].
  cbn [digits_fuel].
  pose proof (Z.mod_pos_bound n 10 ltac:(lia)) as Hm.
  destruct (digit_char (n mod 10) Hm) as [Hd Hc].
  set (c := ascii_of_N (Z.to_N (48 + n mod 10))) in *.
  assert (Hacc' : all_digits (String c acc) = true) by (cbn; rewrite Hd; exact Hacc).
  assert (Hv : digits_value 0 (String c acc) = n mod 10 * weight acc + digits_value 0 acc).
  { cbn [digits_value]. rewrite digits_value_weight, Hc. ring. }
  destruct (Z.ltb_spec n 10) as [Hlt | Hge].
  - split; [discriminate |]. split; [exact Hacc' |].
    rewrite Hv, Z.mod_small by lia. reflexivity.
  - assert (Hfuel : (0 < fuel)%nat).
    { destruct fuel; [| lia]. cbn in Hn. lia. }
    assert (Hn' : 0 <= n / 10 < 2 ^ Z.of_nat fuel).
    { split; [apply Z.div_pos; lia |].
      apply Z.div_lt_upper_bound; [lia |].
      rewrite Nat2Z.inj_succ, Z.pow_succ_r in Hn by lia. lia. }
    destruct (IH (n / 10) (String c acc) Hn' Hfuel Hacc') as (Hne & Hall & Hval).
    split; [exact Hne |]. split; [exact Hall |].
    rewrite Hval, Hv. cbn [weight].
    pose proof (Z.div_mod n 10 ltac:(lia)). nia.
Qed.

Lemma decimal_spec n : 0 <= n ->
  decimal n <> "" /\ all_digits (decimal n) = true /\ digits_value 0 (decimal n) = n.
Proof.
  intros Hn. unfold decimal.
  assert (Hb : 0 <= n < 2 ^ Z.of_nat (S (Z.to_nat (Z.log2 n)))).
  { split; [exact Hn |]. rewrite Nat2Z.inj_succ, Z2Nat.id by apply Z.log2_nonneg.
    destruct (Z.eq_dec n 0) as [-> | ]; [reflexivity |].
    apply Z.log2_spec. lia. }
  destruct (digits_fuel_spec _ n "" Hb ltac:(lia) eq_refl) as (Hne & Hall & Hval).
  split; [exact Hne |]. split; [exact Hall |].
  rewrite Hval. cbn. ring.
Qed.

Lemma strip_digits sp s :
  (forall c, is_digit c = true -> sp c = false) ->
  s <> "" -> all_digits s = true ->
  rstrip sp (lstrip sp s) = s.
Proof.
  intros Hsp Hne Hd.
  assert (L : lstrip sp s = s).
  { destruct s as [| c s]; [congruence |]. cbn in Hd |- *.
    apply andb_prop in Hd as [Hc _]. rewrite (Hsp c Hc). reflexivity. }
  rewrite L. clear L Hne.
  induction s as [| c s IH]; [reflexivity |].
  cbn in Hd |- *. apply andb_prop in Hd as [Hc Hs]. rewrite (IH Hs).
  destruct s; [rewrite (Hsp c Hc) |]; reflexivity.
Qed.

Lemma digit_no_space c : is_digit c = true -> is_numeric_space c = false.
Proof.
  unfold is_digit, is_numeric_space, in_range. intros H.
  apply andb_prop in H as [H1 H2]. apply Z.leb_le in H1, H2.
  repeat (apply orb_false_intro); try (apply Z.eqb_neq; lia).
  apply andb_false_iff. right. apply Z.leb_gt. lia.
Qed.

Lemma digit_no_sign c : is_digit c = true -> Ascii.eqb c "+" = false /\ Ascii.eqb c "-" = false.
Proof.
  intros H. split.
  - destruct (Ascii.eqb_spec c "+") as [-> | ]; [discriminate | reflexivity].
  - destruct (Ascii.eqb_spec c "-") as [-> | ]; [discriminate | reflexivity].
Qed.

Lemma count_digits_all s :
  all_digits s = true -> count_digits s = Z.of_nat (String.length s).
Proof.
  induction s as [| c s IH]; [reflexivity |].
  cbn [all_digits count_digits String.length].
  intros H. apply andb_prop in H as [-> Hs]. rewrite (IH Hs). lia.
Qed.

Lemma weight_pow s : weight s = 10 ^ Z.of_nat (String.length s).
Proof.
  induction s as [| c s IH]; [reflexivity |]. cbn [weight String.length].
  rewrite Nat2Z.inj_succ, Z.pow_succ_r by lia. rewrite IH. reflexivity.
Qed.

Lemma digit_code c : is_digit c = true -> 48 <= code c <= 57.
Proof. unfold is_digit, in_range. lia. Qed.

Lemma digits_value_bounds s :
  all_digits s = true -> 0 <= digits_value 0 s < weight s.
Proof.
  induction s as [| c s IH]; [cbn; lia |]. cbn [all_digits digits_value weight].
  intros H. apply andb_prop in H as [Hc Hs]. rewrite digits_value_weight.
  pose proof (digit_code c Hc). specialize (IH Hs). nia.
Qed.

(** The text of a positive integer does not start with a zero. *)
Lemma digits_fuel_leading fuel : forall n acc,
  0 < n < 2 ^ Z.of_nat fuel ->
  exists c rest, digits_fuel fuel n acc = String c rest /\ 49 <= code c.
Proof.
  induction fuel as [| fuel IH]; intros n acc Hn; [cbn in Hn; lia |].
  cbn [digits_fuel].
  pose proof (Z.mod_pos_bound n 10 ltac:(lia)) as Hm.
  destruct (digit_char (n mod 10) Hm) as [_ Hc].
  destruct (Z.ltb_spec n 10) as [Hlt | Hge].
  - eexists _, _. split; [reflexivity |]. cbv zeta in Hc. rewrite Hc.
    rewrite Z.mod_small by lia. lia.
  - apply IH. split.
    + apply Z.div_str_pos. lia.
    + apply Z.div_lt_upper_bound; [lia |].
      rewrite Nat2Z.inj_succ, Z.pow_succ_r in Hn by lia. lia.
Qed.

(** An integer has at most [k] digits exactly when it is below [10 ^ k]. *)
Lemma decimal_length n k :
  0 <= n -> 1 <= k -> (count_digits (decimal n) <= k <-> n < 10 ^ k).
Proof.
  intros Hn Hk. destruct (decimal_spec n Hn) as (Hne & Hall & Hval).
  rewrite (count_digits_all _ Hall).
  pose proof (digits_value_bounds _ Hall) as Hb. rewrite Hval, weight_pow in Hb.
  split; intros H.
  - apply Z.lt_le_trans with (1 := proj2 Hb). apply Z.pow_le_mono_r; lia.
  - destruct (Z.eq_dec n 0) as [-> | Hpos]; [cbn; lia |].
    assert (Hlead : exists c rest, decimal n = String c rest /\ 49 <= code c).
    { unfold decimal. apply digits_fuel_leading. split; [lia |].
      rewrite Nat2Z.inj_succ, Z2Nat.id by apply Z.log2_nonneg.
      apply Z.log2_spec. lia. }
    destruct Hlead as (c & rest & E & Hc). rewrite E in Hval, Hall |- *.
    cbn [all_digits] in Hall. apply andb_prop in Hall as [_ Hrest].
    cbn [digits_value] in Hval. rewrite digits_value_weight in Hval.
    pose proof (digits_value_bounds _ Hrest) as Hr. rewrite weight_pow in Hval, Hr.
    cbn [String.length]. rewrite Nat2Z.inj_succ.
    assert (Hlow : 10 ^ Z.of_nat (String.length rest) <= n) by nia.
    assert (Hlt : 10 ^ Z.of_nat (String.length rest) < 10 ^ k) by lia.
    apply Z.pow_lt_mono_r_iff in Hlt; lia.
Qed.

(** A text of digits parses to the number it denotes, unless it has too
    many digits. *)
Lemma parse_digits t :
  t <> "" -> all_digits t = true ->
  parse t = if int_max_str_digits <? count_digits t then Raise ValueError
            else Ok (digits_value 0 t).
Proof.
  intros Hne Hall. unfold parse. cbv zeta.
  rewrite strip_digits by (auto using digit_no_space).
  unfold signed. destruct t as [| c s] eqn:E; [congruence |].
  assert (Hc : is_digit c = true) by (cbn in Hall; apply andb_prop in Hall; tauto).
  destruct (digit_no_sign c Hc) as [-> ->].
  rewrite digitpart_digits by (congruence || exact Hall). reflexivity.
Qed.

Lemma limit_test n k :
  0 <= n -> 1 <= k -> (k <? count_digits (decimal n)) = negb (n <? 10 ^ k).
Proof.
  intros Hn Hk. pose proof (decimal_length n k Hn Hk) as H.
  destruct (Z.ltb_spec k (count_digits (decimal n))), (Z.ltb_spec n (10 ^ k));
    try reflexivity; lia.
Qed.

Lemma int_max_str_digits_pos : 1 <= int_max_str_digits.
Proof. discriminate. Qed.

(** The text of a non-negative integer parses back to it, up to the digit
    limit. *)
Lemma parse_decimal n :
  0 <= n ->
  parse (decimal n)
  = if n <? 10 ^ int_max_str_digits then Ok n else Raise ValueError.
Proof.
  intros Hn. destruct (decimal_spec n Hn) as (Hne & Hall & Hval).
  rewrite (parse_digits _ Hne Hall), Hval,
    (limit_test n _ Hn int_max_str_digits_pos).
  destruct (n <? 10 ^ int_max_str_digits); reflexivity.
Qed.

Lemma lstrip_minus s : lstrip is_numeric_space (String "-" s) = String "-" s.
Proof. reflexivity. Qed.

Lemma parse_signed_decimal z :
  parse (signed_decimal z)
  = if Z.abs z <? 10 ^ int_max_str_digits then Ok z else Raise ValueError.
Proof.
  unfold signed_decimal. destruct (Z.ltb_spec z 0) as [Hneg | Hpos];
    [| rewrite Z.abs_eq by exact Hpos; apply parse_decimal; exact Hpos].
  destruct (decimal_spec (- z) ltac:(lia)) as (Hne & Hall & Hval).
  unfold parse. cbv zeta. rewrite lstrip_minus.
  assert (R : rstrip is_numeric_space (String "-" (decimal (- z)))
              = String "-" (decimal (- z))).
  { cbn [rstrip].
    replace (rstrip is_numeric_space (decimal (- z))) with (decimal (- z)).
    - destruct (decimal (- z)); [congruence | reflexivity].
    - symmetry.
      pose proof (strip_digits is_numeric_space (decimal (- z)) digit_no_space Hne Hall) as S.
      destruct (decimal (- z)) as [| c s] eqn:E; [congruence |].
      assert (Hc : is_digit c = true) by (cbn in Hall; apply andb_prop in Hall; tauto).
      cbn [lstrip] in S. rewrite (digit_no_space c Hc) in S. exact S. }
  rewrite R. cbn [signed]. change (Ascii.eqb "-" "+") with false.
  change (Ascii.eqb "-" "-") with true. cbn iota.
  rewrite digitpart_digits by assumption. rewrite Hval. cbn [option_map].
  cbn [count_digits]. change (is_digit "-") with false. cbn iota.
  rewrite Z.add_0_l, (limit_test (- z) _ ltac:(lia) int_max_str_digits_pos).
  rewrite Z.abs_neq by lia. rewrite Z.opp_involutive.
  destruct (- z <? 10 ^ int_max_str_digits); reflexivity.
Qed.

(** The text of an [int], up to the digit limit. *)
Lemma int_repr_spec z :
  Py.int_repr z
  = if Z.abs z <? 10 ^ int_max_str_digits then Ok (signed_decimal z)
    else Raise ValueError.
Proof.
  unfold Py.int_repr.
  rewrite (limit_test (Z.abs z) _ (Z.abs_nonneg z) int_max_str_digits_pos).
  destruct (Z.abs z <? 10 ^ int_max_str_digits); reflexivity.
Qed.

End IntLiteralFacts.

(** A Python int coerces to itself, up to the digit limit of its text. *)
Lemma safe_int_of_int z :
  _safe_int (PInt z)
  = if Z.abs z <? 10 ^ Text.int_max_str_digits then Some z else None.
Proof.
  unfold _safe_int. cbn [Py.str Py.repr]. rewrite int_repr_spec.
  destruct (Z.abs z <? 10 ^ Text.int_max_str_digits) eqn:E; [| reflexivity].
  cbn [bind]. rewrite parse_signed_decimal, E. reflexivity.
Qed.

(** ** Facts about the text of a float *)

Section FloatReprFacts.
Import Text PyFloat.

Lemma positional_has_point ds decpt : contains "." (positional ds decpt) = true.
Proof.
  unfold positional.
  destruct (decpt <=? 0); [reflexivity |].
  destruct (_ <=? decpt).
  - rewrite !contains_app. cbn. rewrite !orb_true_r. reflexivity.
  - destruct (split_at decpt ds) as [a b].
    rewrite !contains_app. cbn. rewrite !orb_true_r. reflexivity.
Qed.

Lemma scientific_has_e ds e : contains "e" (scientific ds e) = true.
Proof.
  unfold scientific. rewrite !contains_app. cbn [contains Ascii.eqb].
  cbn. rewrite !orb_true_r. reflexivity.
Qed.

Lemma repr_marks_float f : marks_float (repr f) = true.
Proof.
  unfold marks_float. destruct f as [| neg | neg m e10].
  - reflexivity.
  - destruct neg; reflexivity.
  - unfold repr. rewrite !contains_app.
    destruct (m =? 0)%N; [destruct neg; reflexivity |].
    destruct (drop_trailing_zeros _ _ _) as [m' z].
    destruct (_ && _).
    + rewrite positional_has_point. rewrite !orb_true_r. reflexivity.
    + rewrite scientific_has_e. rewrite !orb_true_r. reflexivity.
Qed.

Lemma float_text_is_no_integer f :
  IntLiteral.parse (repr f) = Raise ValueError.
Proof.
  pose proof (repr_marks_float f) as H. unfold marks_float in H.
  apply orb_prop in H as [H | H]; [apply orb_prop in H as [H | H] |];
    eapply parse_rejects; try exact H; reflexivity.
Qed.

End FloatReprFacts.

(** ** Facts used by several claims *)

Lemma Forall_firstn {A} (P : A -> Prop) (l : list A) n :
  Forall P l -> Forall P (firstn n l).
Proof.
  intros H. revert n. induction H as [| x xs Hx _ IH]; intros [| n]; cbn; auto.
Qed.

Lemma blank_location_str s :
  blank_location (PStr s) = negb (Py.truthy (PStr (Text.strip s))).
Proof.
  unfold blank_location. cbn [text_of Py.truthy]. rewrite negb_involutive.
  destruct (forallb Unicode.is_space (Unicode.of_string s)) eqn:H.
  - apply strip_spaces in H. rewrite strip_of_string in H.
    apply of_string_nil in H. rewrite H. reflexivity.
  - destruct (String.eqb_spec (Text.strip s) "") as [E | _]; [| reflexivity].
    assert (F : Unicode.strip (Unicode.of_string s) = [])
      by (rewrite strip_of_string, E; reflexivity).
    apply strip_spaces in F. congruence.
Qed.

Lemma max_spec_list xs : forall x,
  In (Py.max x xs) (x :: xs) /\ Forall (fun z => z <= Py.max x xs) (x :: xs).
Proof.
  unfold Py.max. induction xs as [| y ys IH]; intros x; cbn [fold_left].
  - split; [left; reflexivity | repeat constructor; lia].
  - destruct (IH (Z.max x y)) as [Hin Hall].
    inversion Hall as [| ? ? Hm Hys]; subst.
    split.
    + destruct Hin as [Hin | Hin]; [| right; right; exact Hin].
      rewrite <- Hin.
      destruct (Z.max_spec x y) as [[_ E] | [_ E]]; rewrite E; cbn; auto.
    + constructor; [lia |]. constructor; [lia | exact Hys].
Qed.

(** For entries of the expected shape the loop body returns [summary]. *)
Lemma days_reduce days :
  Forall (fun d => daily_entry_ok d = true) days ->
  exists fc, mapM aggregate_day days = Ok fc.
Proof.
  induction 1 as [| d ds Hd _ [fc IH]]; cbn; [eauto |].
  destruct (aggregate_day_ok d Hd) as (hs & _ & ->). cbn. rewrite IH. cbn. eauto.
Qed.

Lemma successful_call net s fd kvs days :
  blank_location (PStr s) = false ->
  fetch net (request_url s) = Ok (PDict kvs) ->
  Py.dict_get kvs "weather" = PList days ->
  days <> [] ->
  Forall (fun d => daily_entry_ok d = true) days ->
  exists fc,
    get_weather_data net (PStr s) fd
    = ([EvGet (request_url s) 10],
       Ok (Some {| location := PStr s; forecast := fc |}))
    /\ List.length fc = resolved_days fd (List.length days)
    /\ Forall2 (fun day out => aggregate_day day = Ok out)
               (firstn (resolved_days fd (List.length days)) days) fc.
Proof.
  intros Hb Hf Hw Hne Hok.
  rewrite blank_location_str in Hb. apply negb_false_iff in Hb.
  rewrite (call_on_days net s fd kvs days Hb Hf Hw Hne).
  destruct (days_reduce _ (Forall_firstn _ _ (resolved_days fd (List.length days)) Hok))
    as [fc Hfc].
  exists fc. rewrite Hfc. cbn [bind]. split; [reflexivity |].
  pose proof (mapM_ok_Forall2 _ _ _ Hfc) as H2.
  split; [| exact H2].
  apply Forall2_length in H2. rewrite <- H2, length_firstn.
  assert (1 <= List.length days)%nat by (destruct days; [congruence | cbn; lia]).
  pose proof (resolved_days_bounds fd (List.length days) ltac:(lia)). lia.
Qed.

Lemma call_on_blank_location net location forecast_days :
  blank_location location = true ->
  get_weather_data net location forecast_days = ([EvPrint InvalidLocation], Ok None).
Proof.
  intros Hb.
  destruct (call_cases net location forecast_days)
    as [[_ H] | [(text & e & _ & Hn & _) | (text & url & _ & Hn & _)]];
    [exact H | congruence | congruence].
Qed.

Lemma call_on_falsy_weather net s forecast_days kvs :
  blank_location (PStr s) = false ->
  fetch net (request_url s) = Ok (PDict kvs) ->
  Py.truthy (Py.dict_get kvs "weather") = false ->
  get_weather_data net (PStr s) forecast_days
  = ([EvGet (request_url s) 10; EvPrint UnexpectedShape], Ok None).
Proof.
  intros Hb Hf Ht.
  rewrite blank_location_str in Hb. apply negb_false_iff in Hb.
  rewrite call_on_latin1, Hb. unfold request_and_reduce.
  rewrite Hf. cbn [negb Py.get bind].
  unfold Py.or_else. rewrite Ht. reflexivity.
Qed.

(** The loop body returns exactly on the entries of the expected shape. *)
Lemma daily_entry_ok_iff day :
  daily_entry_ok day = true <-> exists out, aggregate_day day = Ok out.
Proof.
  split.
  - intros H. destruct (aggregate_day_ok day H) as (hs & _ & Ha). eauto.
  - intros [out H]. exact (aggregate_day_inv day out H).
Qed.

(** Readings that sum to less than 2^52 in magnitude have a mean in range. *)
Lemma mean_fits_small zs : Z.abs (Py.sum zs) < 2 ^ 52 -> mean_fits zs = true.
Proof.
  intros H. destruct zs as [| z zs]; [reflexivity |].
  apply mean_fits_iff.
  destruct (true_divide_exact (Py.sum (z :: zs)) (Z.of_nat (List.length (z :: zs))))
    as (q & Hq & _); [cbn [List.length]; lia | exact H | eauto].
Qed.

(** ** The claims *)

(** C1: for a successful response whose ["weather"] list holds [N] daily
    entries, the forecast of the returned result has [min (max D 1) N]
    entries when the requested count coerces to the integer [D], and
    [min 5 N] entries, as for a request of 5, when it does not coerce; they
    are the reductions of the first upstream entries, in upstream order.
    A result is returned whenever the daily entries are of the expected
    shape. *)
Theorem forecast_takes_first_days_in_order net s forecast_days kvs days :
  blank_location (PStr s) = false ->
  fetch net (request_url s) = Ok (PDict kvs) ->
  Py.dict_get kvs "weather" = PList days ->
  days <> [] ->
  let N := Z.of_nat (List.length days) in
  let count :=
    match Py.int forecast_days with
    | Ok D => Z.min (Z.max D 1) N
    | Raise _ => Z.min 5 N
    end in
  (forall tr r,
     get_weather_data net (PStr s) forecast_days = (tr, Ok (Some r)) ->
     Z.of_nat (List.length (forecast r)) = count
     /\ Forall2 (fun day out => aggregate_day day = Ok out)
                (firstn (Z.to_nat count) days) (forecast r))
  /\ (Forall (fun d => daily_entry_ok d = true) days ->
      exists r,
        get_weather_data net (PStr s) forecast_days
        = ([EvGet (request_url s) 10], Ok (Some r))).
Proof.
  intros Hb Hf Hw Hne N count.
  assert (Hc : resolved_days forecast_days (List.length days) = Z.to_nat count).
  { unfold resolved_days, requested_days, count, N.
    destruct (Py.int forecast_days); f_equal; lia. }
  assert (Hn : (1 <= List.length days)%nat) by (destruct days; [congruence | cbn; lia]).
  assert (H1 : 1 <= count <= N).
  { unfold count, N. destruct (Py.int forecast_days); lia. }
  split.
  - intros tr r H.
    destruct (success_inv _ _ _ _ _ H)
      as (s' & kvs' & days' & fc & Es & _ & Hf' & Hw' & _ & _ & Hfc & ->).
    injection Es as <-. rewrite Hf in Hf'. injection Hf' as <-.
    rewrite Hw in Hw'. injection Hw' as <-.
    cbn [forecast]. rewrite Hc in Hfc.
    pose proof (mapM_ok_Forall2 _ _ _ Hfc) as H2.
    split; [| exact H2].
    apply Forall2_length in H2. rewrite length_firstn in H2. unfold N in H1. lia.
  - intros Hok.
    destruct (successful_call net s forecast_days kvs days Hb Hf Hw Hne Hok)
      as (fc & Hcall & _).
    eauto.
Qed.

Lemma forecast_takes_first_days_in_order_witness :
  (forall tr r,
     get_weather_data (respond (PDict sample_body)) (PStr " Taipei ") (PStr "2")
     = (tr, Ok (Some r)) ->
     Z.of_nat (List.length (forecast r)) = 2
     /\ Forall2 (fun day out => aggregate_day day = Ok out)
                (firstn 2 sample_days) (forecast r))
  /\ (Forall (fun d => daily_entry_ok d = true) sample_days ->
      exists r,
        get_weather_data (respond (PDict sample_body)) (PStr " Taipei ") (PStr "2")
        = ([EvGet (request_url " Taipei ") 10], Ok (Some r))).
Proof.
  apply (forecast_takes_first_days_in_order
           (respond (PDict sample_body)) " Taipei " (PStr "2") sample_body sample_days).
  - reflexivity.
  - reflexivity.
  - reflexivity.
  - discriminate.
Defined.

(** C4: when the location is not a string, or is a string that is empty or
    all white space, the call returns null at once: the only event is the
    diagnostic, no URL is built and no GET is issued. *)
Theorem invalid_location_returns_null_without_request net location forecast_days :
  blank_location location = true ->
  get_weather_data net location forecast_days
  = ([EvPrint InvalidLocation], Ok None)
  /\ forall url timeout,
       ~ In (EvGet url timeout) (fst (get_weather_data net location forecast_days)).
Proof.
  intros Hb.
  pose proof (call_on_blank_location net location forecast_days Hb) as E.
  split; [exact E |].
  intros url timeout. rewrite E. cbn. intros [H | []]. discriminate.
Qed.

Lemma invalid_location_returns_null_without_request_witness :
  get_weather_data (respond (PDict sample_body)) (PStr "   ") (PInt 3)
  = ([EvPrint InvalidLocation], Ok None)
  /\ forall url timeout,
       ~ In (EvGet url timeout)
            (fst (get_weather_data (respond (PDict sample_body)) (PStr "   ") (PInt 3))).
Proof.
  apply (invalid_location_returns_null_without_request
           (respond (PDict sample_body)) (PStr "   ") (PInt 3)).
  reflexivity.
Defined.

(** C7: when the decoded body is an object whose ["weather"] key is absent,
    or maps to an empty list, or maps to any falsy value, the call prints
    the shape diagnostic and returns null. *)
Theorem missing_weather_returns_null net s forecast_days kvs :
  blank_location (PStr s) = false ->
  fetch net (request_url s) = Ok (PDict kvs) ->
  Py.assoc "weather" kvs = None
  \/ Py.dict_get kvs "weather" = PList []
  \/ Py.truthy (Py.dict_get kvs "weather") = false ->
  get_weather_data net (PStr s) forecast_days
  = ([EvGet (request_url s) 10; EvPrint UnexpectedShape], Ok None).
Proof.
  intros Hb Hf Hw.
  assert (Ht : Py.truthy (Py.dict_get kvs "weather") = false).
  { destruct Hw as [Hw | [Hw | Hw]]; [| rewrite Hw; reflexivity | exact Hw].
    unfold Py.dict_get. rewrite Hw. reflexivity. }
  exact (call_on_falsy_weather net s forecast_days kvs Hb Hf Ht).
Qed.

Lemma missing_weather_returns_null_witness :
  get_weather_data (respond (PDict [("weather", PList [])])) (PStr "Oslo") (PInt 5)
  = ([EvGet (request_url "Oslo") 10; EvPrint UnexpectedShape], Ok None).
Proof.
  apply (missing_weather_returns_null
           (respond (PDict [("weather", PList [])])) "Oslo" (PInt 5)
           [("weather", PList [])]).
  - reflexivity.
  - reflexivity.
  - right. left. reflexivity.
Defined.



(** C10: whenever the call returns a result, its forecast list is
    non-empty: it has the resolved number of entries, which is at least 1
    and at most the number of upstream daily entries. *)
Theorem forecast_is_non_empty_and_bounded net (location : pyval) forecast_days tr r :
  get_weather_data net location forecast_days = (tr, Ok (Some r)) ->
  exists s kvs days,
    location = PStr s
    /\ fetch net (request_url s) = Ok (PDict kvs)
    /\ Py.dict_get kvs "weather" = PList days
    /\ Z.of_nat (List.length (forecast r))
       = Z.min (requested_days forecast_days) (Z.of_nat (List.length days))
    /\ (1 <= List.length (forecast r) <= List.length days)%nat.
Proof.
  intros H.
  destruct (success_inv _ _ _ _ _ H)
    as (s & kvs & days & fc & -> & _ & Hf & Hw & Hne & _ & Hfc & ->).
  exists s, kvs, days. repeat (split; [assumption || reflexivity |]).
  cbn [forecast].
  apply mapM_ok_Forall2, Forall2_length in Hfc. rewrite length_firstn in Hfc.
  assert (1 <= List.length days)%nat by (destruct days; [congruence | cbn; lia]).
  pose proof (resolved_days_bounds forecast_days (List.length days) ltac:(lia)) as Hb.
  unfold resolved_days in *. pose proof (requested_days_pos forecast_days). lia.
Qed.

Lemma forecast_is_non_empty_and_bounded_witness :
  exists s kvs days,
    PStr "Lima" = PStr s
    /\ fetch (respond (PDict sample_body)) (request_url s) = Ok (PDict kvs)
    /\ Py.dict_get kvs "weather" = PList days
    /\ Z.of_nat (List.length [summary sample_day sample_hourly])
       = Z.min (requested_days (PInt (-4))) (Z.of_nat (List.length days))
    /\ (1 <= List.length [summary sample_day sample_hourly] <= List.length days)%nat.
Proof.
  apply (forecast_is_non_empty_and_bounded
           (respond (PDict sample_body)) (PStr "Lima") (PInt (-4))
           [EvGet (request_url "Lima") 10]
           {| location := PStr "Lima"; forecast := [summary sample_day sample_hourly] |}).
  vm_compute. reflexivity.
Defined.

(** C6: for every daily entry of the expected shape, the output wind field
    is the maximum of the integer-coercible subset of the present hourly
    [windspeedKmph] values, and null when that subset is empty; for the
    hourly wind values 10, 25, 15 it is 25.  (The entries of the expected
    shape are those the loop body reduces without raising.) *)
Theorem wind_is_maximum_of_valid_readings day :
  daily_entry_ok day = true ->
  exists hs out,
    hourly_of day = PList hs
    /\ aggregate_day day = Ok out
    /\ match valid_readings "windspeedKmph" hs with
       | [] => wind out = None
       | zs => exists m, wind out = Some m /\ In m zs /\ Forall (fun z => z <= m) zs
       end
    /\ (map (field "windspeedKmph") hs = [PInt 10; PInt 25; PInt 15] ->
        wind out = Some 25).
Proof.
  intros Hok. destruct (aggregate_day_ok day Hok) as (hs & Hh & Ha).
  exists hs, (summary day hs). split; [exact Hh |]. split; [exact Ha |].
  unfold summary. cbn [wind].
  split.
  - destruct (valid_readings "windspeedKmph" hs) as [| w rest]; [reflexivity |].
    exists (Py.max w rest). split; [reflexivity |]. apply max_spec_list.
  - intros Hv. unfold valid_readings, present. rewrite Hv. reflexivity.
Qed.

Lemma wind_is_maximum_of_valid_readings_witness :
  exists hs out,
    hourly_of sample_day = PList hs
    /\ aggregate_day sample_day = Ok out
    /\ match valid_readings "windspeedKmph" hs with
       | [] => wind out = None
       | zs => exists m, wind out = Some m /\ In m zs /\ Forall (fun z => z <= m) zs
       end
    /\ (map (field "windspeedKmph") hs = [PInt 10; PInt 25; PInt 15] ->
        wind out = Some 25).
Proof.
  apply (wind_is_maximum_of_valid_readings sample_day). reflexivity.
Defined.

(** C2, as the code has it: for every daily entry that is an object with a
    list of hourly objects whose integer-coercible present humidity values
    sum to less than 2^52 in magnitude, the output humidity field is the
    mean of those values rounded to the nearest integer, a tie going to the
    even neighbour; values that are present but not coercible count neither
    in the sum nor in the denominator; the field is null when no value is
    coercible; for the hourly humidity values 50, 60, 70 it is 60. *)
Theorem humidity_is_rounded_mean_of_valid_readings day hs :
  is_dict day = true ->
  hourly_of day = PList hs ->
  forallb is_dict hs = true ->
  Z.abs (Py.sum (valid_readings "humidity" hs)) < 2 ^ 52 ->
  exists out,
    aggregate_day day = Ok out
    /\ match valid_readings "humidity" hs with
       | [] => humidity out = None
       | zs => exists k, humidity out = Some k /\ rounded_mean zs k
       end
    /\ (map (field "humidity") hs = [PInt 50; PInt 60; PInt 70] ->
        humidity out = Some 60).
Proof.
  intros Hd Hh Hhs Hsum.
  assert (Hdiv : forall z zs, valid_readings "humidity" hs = z :: zs ->
            exists q, true_divide (Py.sum (z :: zs)) (Z.of_nat (List.length (z :: zs))) = Ok q
                 /\ py_round q
                    = Binary64.round_half_even (Py.sum (z :: zs))
                        (Z.of_nat (List.length (z :: zs)))).
  { intros z zs E. apply true_divide_exact; [cbn [List.length]; lia |].
    rewrite <- E. exact Hsum. }
  assert (Hok : daily_entry_ok day = true).
  { unfold daily_entry_ok. rewrite Hd, Hh, Hhs. cbn [andb].
    apply mean_fits_small. exact Hsum. }
  destruct (aggregate_day_ok day Hok) as (hs' & Hh' & Ha).
  assert (hs' = hs) by congruence. subst hs'.
  exists (summary day hs). split; [exact Ha |].
  unfold summary. cbn [humidity].
  destruct (valid_readings "humidity" hs) as [| z zs] eqn:E.
  - split; [reflexivity |]. intros Hv.
    unfold valid_readings, present in E. rewrite Hv in E. discriminate.
  - destruct (Hdiv z zs eq_refl) as (q & Hq & Hr). rewrite Hq.
    cbn [try_or_none option_map]. split.
    + exists (py_round q). split; [reflexivity |].
      unfold rounded_mean. rewrite Hr.
      apply round_half_even_spec. cbn [List.length]. lia.
    + intros Hv. unfold valid_readings, present in E. rewrite Hv in E.
      injection E as <- <-. rewrite Hr. reflexivity.
Qed.

Lemma humidity_is_rounded_mean_of_valid_readings_witness :
  exists out,
    aggregate_day sample_day = Ok out
    /\ match valid_readings "humidity" sample_hourly with
       | [] => humidity out = None
       | zs => exists k, humidity out = Some k /\ rounded_mean zs k
       end
    /\ (map (field "humidity") sample_hourly = [PInt 50; PInt 60; PInt 70] ->
        humidity out = Some 60).
Proof.
  apply (humidity_is_rounded_mean_of_valid_readings sample_day sample_hourly).
  - reflexivity.
  - reflexivity.
  - reflexivity.
  - vm_compute. reflexivity.
Defined.

(** C2, as stated, fails: the one present humidity value 2^53 + 1 has the
    mean 2^53 + 1, yet the output humidity is 2^53, which is not the nearest
    integer: the quotient is rounded to a float before [round] sees it. *)
Lemma humidity_beyond_53_bits_is_not_the_rounded_mean :
  valid_readings "humidity" wide_hourly = [2 ^ 53 + 1]
  /\ exists out,
       aggregate_day wide_day = Ok out
       /\ humidity out = Some (2 ^ 53)
       /\ ~ rounded_mean (valid_readings "humidity" wide_hourly) (2 ^ 53).
Proof.
  split; [vm_compute; reflexivity |].
  eexists. split; [vm_compute; reflexivity |]. split; [reflexivity |].
  replace (valid_readings _ _) with [2 ^ 53 + 1] by (vm_compute; reflexivity).
  unfold rounded_mean, nearest_even. cbn [List.length Py.sum fold_left].
  intros [H | [H _]]; revert H; vm_compute; [intros H; inversion H | discriminate].
Qed.






(** C5: a numeric field that cannot be coerced never raises and never
    aborts the call: for a successful response with daily entries of the
    expected shape the call returns a result in which every selected day has
    its complete output, with a null temperature where [avgtempC] does not
    coerce to an integer (as for the text n/a) and a null precipitation
    where [totalprecipMM] does not coerce to a float. *)
Theorem uncoercible_fields_become_null net s forecast_days kvs days :
  blank_location (PStr s) = false ->
  fetch net (request_url s) = Ok (PDict kvs) ->
  Py.dict_get kvs "weather" = PList days ->
  days <> [] ->
  Forall (fun d => daily_entry_ok d = true) days ->
  exists fc,
    get_weather_data net (PStr s) forecast_days
    = ([EvGet (request_url s) 10],
       Ok (Some {| location := PStr s; forecast := fc |}))
    /\ Forall2
         (fun day out =>
            (exists hs, hourly_of day = PList hs /\ out = summary day hs)
            /\ (forall e, (t <- Py.str (field "avgtempC" day) ;; IntLiteral.parse t) = Raise e ->
                          temp out = None)
            /\ (forall e, (t <- Py.str (field "totalprecipMM" day) ;; Py.float_of_str t) = Raise e ->
                          precipitation out = None))
         (firstn (resolved_days forecast_days (List.length days)) days) fc
    /\ _safe_int (PStr "n/a") = None.
Proof.
  intros Hb Hf Hw Hne Hok.
  destruct (successful_call net s forecast_days kvs days Hb Hf Hw Hne Hok)
    as (fc & Hcall & _ & Hall).
  exists fc. split; [exact Hcall |]. split; [| reflexivity].
  eapply Forall2_impl; [| exact Hall].
  intros day out Ha. cbv beta in Ha.
  destruct (aggregate_day_summary day out Ha) as (hs & Hh & _ & ->).
  split; [eauto |]. unfold summary, _safe_int, _safe_float. cbn [temp precipitation].
  split; intros e ->; reflexivity.
Qed.

Lemma uncoercible_fields_become_null_witness :
  exists fc,
    get_weather_data (respond (PDict sample_body)) (PStr "Rome") (PInt 1)
    = ([EvGet (request_url "Rome") 10],
       Ok (Some {| location := PStr "Rome"; forecast := fc |}))
    /\ Forall2
         (fun day out =>
            (exists hs, hourly_of day = PList hs /\ out = summary day hs)
            /\ (forall e, (t <- Py.str (field "avgtempC" day) ;; IntLiteral.parse t) = Raise e ->
                          temp out = None)
            /\ (forall e, (t <- Py.str (field "totalprecipMM" day) ;; Py.float_of_str t) = Raise e ->
                          precipitation out = None))
         (firstn (resolved_days (PInt 1) (List.length sample_days)) sample_days) fc
    /\ _safe_int (PStr "n/a") = None.
Proof.
  apply (uncoercible_fields_become_null
           (respond (PDict sample_body)) "Rome" (PInt 1) sample_body sample_days).
  - reflexivity.
  - reflexivity.
  - reflexivity.
  - discriminate.
  - repeat constructor.
Defined.

(** C9: [_safe_int] succeeds exactly when the text [str(v)] parses as an
    integer literal, with that value; so every float (50.5 for one) and
    every boolean coerces to null, and such a present hourly value adds
    nothing to the valid readings the humidity and wind aggregates are
    computed from. *)
Theorem safe_int_succeeds_exactly_on_integer_text :
  (forall v z,
     _safe_int v = Some z <-> (t <- Py.str v ;; IntLiteral.parse t) = Ok z)
  /\ (forall v, float_or_bool v = true -> _safe_int v = None)
  /\ _safe_int (PFloat (FDec false 505 (-1))) = None
  /\ (forall key kvs rest,
        float_or_bool (Py.dict_get kvs key) = true ->
        res_map Py.not_none (readings key (PDict kvs :: rest))
        = res_map Py.not_none (readings key rest)).
Proof.
  assert (Hnum : forall v, float_or_bool v = true -> _safe_int v = None).
  { intros v Hv. destruct v as [| b | z | f | s | l | d]; try discriminate.
    - destruct b; reflexivity.
    - unfold _safe_int. cbn [Py.str Py.repr bind].
      rewrite float_text_is_no_integer. reflexivity. }
  split; [| split; [exact Hnum | split; [reflexivity |]]].
  - intros v z. unfold _safe_int.
    destruct (t <- Py.str v ;; IntLiteral.parse t); cbn [try_or_none]; split;
      congruence.
  - intros key kvs rest Hv. cbn [readings Py.get bind].
    rewrite (Hnum _ Hv).
    destruct (Py.dict_get kvs key); try discriminate; cbn [Py.is_none];
      destruct (readings key rest); reflexivity.
Qed.

(** * Further properties of the code *)

Lemma readings_not_dicts key hs :
  forallb is_dict hs = false -> readings key hs = Raise AttributeError.
Proof.
  induction hs as [| h hs IH]; cbn [forallb]; [discriminate |].
  intros H. destruct h as [| b | z | f | s | l | kvs]; try reflexivity.
  cbn [is_dict andb] in H. cbn [readings Py.get bind].
  rewrite (IH H). destruct (Py.is_none _); reflexivity.
Qed.

Lemma true_divide_raises s n e :
  0 < n -> true_divide s n = Raise e -> e = OverflowError.
Proof.
  intros Hn. unfold true_divide.
  destruct (Z.eqb_spec n 0); [lia |].
  destruct (Binary64.too_large _); congruence.
Qed.

Lemma hourly_of_truthy day v :
  hourly_of day = v -> Py.truthy v = true \/ v = PList [].
Proof.
  unfold hourly_of, Py.or_else.
  destruct (Py.truthy (field "hourly" day)) eqn:Ht; intros <-; auto.
Qed.

Lemma aggregate_day_dict kvs :
  aggregate_day (PDict kvs)
  = bind (Py.iter (hourly_of (PDict kvs))) (fun hs =>
    bind (readings "humidity" hs) (fun humidities =>
    bind (Py.iter (hourly_of (PDict kvs))) (fun ws =>
    bind (readings "windspeedKmph" ws) (fun winds_kmph =>
    bind (match Py.not_none humidities with
          | [] => Ok None
          | _ :: _ =>
              bind (true_divide (Py.sum (Py.not_none humidities))
                      (Z.of_nat (List.length (Py.not_none humidities))))
                   (fun q => Ok (Some (py_round q)))
          end) (fun avg_humidity =>
    Ok {| date := Py.dict_get kvs "date";
          temp := _safe_int (Py.dict_get kvs "avgtempC");
          humidity := avg_humidity;
          wind := match Py.not_none winds_kmph with
                  | [] => None
                  | w :: rest => Some (Py.max w rest)
                  end;
          precipitation := _safe_float (Py.dict_get kvs "totalprecipMM") |}))))).
Proof. reflexivity. Qed.

(** The loop body ends as [day_failure] says. *)
Lemma aggregate_day_outcome day :
  aggregate_day day
  = match day_failure day with
    | Some e => Raise e
    | None => Ok (summary day (hourly_entries day))
    end.
Proof.
  unfold day_failure, hourly_entries.
  destruct day as [| b | z | f | s | l | kvs]; try reflexivity.
  cbn [is_dict negb]. rewrite aggregate_day_dict.
  pose proof (hourly_of_truthy (PDict kvs) _ eq_refl) as Ht.
  destruct (hourly_of (PDict kvs)) as [| b | z | f | s | hs | d] eqn:Hh;
    try reflexivity.
  - destruct s as [| c s]; [destruct Ht as [Ht | Ht]; discriminate | reflexivity].
  - cbn [Py.iter bind].
    destruct (forallb is_dict hs) eqn:Hd; cbn [negb].
    + rewrite !readings_dicts by exact Hd. cbn [bind].
      fold (coercible (present "humidity" hs)). fold (valid_readings "humidity" hs).
      fold (coercible (present "windspeedKmph" hs)).
      fold (valid_readings "windspeedKmph" hs).
      unfold summary. cbn [field].
      destruct (valid_readings "humidity" hs) as [| z zs] eqn:Hz; [reflexivity |].
      destruct (mean_fits (z :: zs)) eqn:Hm.
      * apply mean_fits_iff in Hm as [q Hq]. rewrite Hq. reflexivity.
      * destruct (true_divide _ _) as [q | e] eqn:Hq.
        -- assert (mean_fits (z :: zs) = true) by (apply mean_fits_iff; eauto). congruence.
        -- apply true_divide_raises in Hq; [subst; reflexivity | cbn [List.length]; lia].
    + rewrite readings_not_dicts by exact Hd. reflexivity.
  - destruct d as [| [k v] d]; [destruct Ht as [Ht | Ht]; discriminate | reflexivity].
Qed.

Lemma mapM_raises {A B} (f : A -> res B) (P : exn -> Prop) l e :
  (forall x e', f x = Raise e' -> P e') -> mapM f l = Raise e -> P e.
Proof.
  intros Hf. induction l as [| x xs IH]; cbn [mapM]; [discriminate |].
  destruct (f x) as [y | e'] eqn:Hx; cbn [bind].
  - destruct (mapM f xs) as [ys | e''] eqn:Hxs; cbn [bind]; [discriminate |].
    intros H. injection H as <-. apply IH. reflexivity.
  - intros H. injection H as <-. eauto.
Qed.

Lemma aggregate_day_raises day e : aggregate_day day = Raise e -> escapes e = true.
Proof.
  rewrite aggregate_day_outcome. unfold day_failure.
  destruct (negb (is_dict day)); [intros H; injection H as <-; reflexivity |].
  destruct (hourly_of day) as [| b | z | f | s | hs | d];
    try (intros H; injection H as <-; reflexivity).
  destruct (negb (forallb is_dict hs)); [intros H; injection H as <-; reflexivity |].
  destruct (mean_fits _); [discriminate | intros H; injection H as <-; reflexivity].
Qed.

Lemma build_forecast_ends loc fd days :
  (exists r, build_forecast loc fd days = Ok (Some r))
  \/ (exists e, build_forecast loc fd days = Raise e /\ escapes e = true).
Proof.
  unfold build_forecast.
  destruct (Py.len days) as [n | e] eqn:Hn; cbn [bind].
  2:{ right. exists e. split; [reflexivity |].
      destruct days; cbn in Hn; try discriminate; injection Hn as <-; reflexivity. }
  destruct (Py.slice_to days _) as [sel | e] eqn:Hs; cbn [bind].
  2:{ right. exists e. split; [reflexivity |].
      destruct days; cbn in Hs; try discriminate; injection Hs as <-; reflexivity. }
  destruct (Py.iter sel) as [items | e] eqn:Hi; cbn [bind].
  2:{ right. exists e. split; [reflexivity |].
      destruct sel; cbn in Hi; try discriminate; injection Hi as <-; reflexivity. }
  destruct (mapM aggregate_day items) as [fc | e] eqn:Hm; cbn [bind].
  - left. eauto.
  - right. exists e. split; [reflexivity |].
    exact (mapM_raises aggregate_day (fun e => escapes e = true) items e
             aggregate_day_raises Hm).
Qed.

(** The ways the part from the request on ends. *)
Lemma reduce_ends net loc fd url :
  (exists e,
     request_and_reduce net loc fd url
     = ([EvGet url 10; EvPrint (ErrorFetching e)], Ok None))
  \/ request_and_reduce net loc fd url
     = ([EvGet url 10; EvPrint UnexpectedShape], Ok None)
  \/ (exists r,
        request_and_reduce net loc fd url = ([EvGet url 10], r)
        /\ ((exists out, r = Ok (Some out))
            \/ (exists e, r = Raise e /\ escapes e = true))).
Proof.
  unfold request_and_reduce.
  destruct (fetch net url) as [data | e] eqn:Hf; [| left; eauto].
  right.
  destruct (Py.get data "weather") as [w | e] eqn:Hg; cbn [bind].
  2:{ right. exists (Raise e). split; [reflexivity |].
      right. exists e. split; [reflexivity |].
      destruct data; cbn in Hg; try discriminate; injection Hg as <-; reflexivity. }
  destruct (Py.truthy (Py.or_else w (PList []))) eqn:Ht; cbn [negb].
  - right. exists (build_forecast loc fd (Py.or_else w (PList []))).
    split; [reflexivity |].
    destruct (build_forecast_ends loc fd (Py.or_else w (PList [])))
      as [[r ->] | (e & -> & He)]; eauto.
  - left. reflexivity.
Qed.

(** A location text fails to give a URL only by a lone surrogate. *)
Lemma location_url_raises text e :
  location_url text = Raise e ->
  e = UnicodeEncodeError
  /\ existsb Unicode.is_surrogate (Unicode.strip text) = true.
Proof.
  unfold location_url, Url.quote. intros H.
  pose proof (encode_surrogates (Unicode.strip text)) as Hs.
  destruct (Unicode.encode (Unicode.strip text)); [discriminate |].
  injection H as <-. exact Hs.
Qed.

(** X1: when the request fails (the client library raises, the status is
    a 4xx or 5xx, or the body does not decode), a call with a valid
    location issues its one GET, prints the fetch diagnostic with that
    exception and returns null, whatever the requested day count. *)
Theorem failed_request_returns_null net s forecast_days e :
  blank_location (PStr s) = false ->
  net (request_url s) 10 = Raise e
  \/ (exists r, net (request_url s) 10 = Ok r
                /\ 400 <= status_code r < 600 /\ e = RequestException)
  \/ (exists r, net (request_url s) 10 = Ok r
                /\ ~ 400 <= status_code r < 600 /\ json r = Raise e) ->
  get_weather_data net (PStr s) forecast_days
  = ([EvGet (request_url s) 10; EvPrint (ErrorFetching e)], Ok None).
Proof.
  intros Hb Hfail.
  assert (Hf : fetch net (request_url s) = Raise e).
  { unfold fetch, raise_for_status.
    destruct Hfail as [-> | [(r & -> & Hs & ->) | (r & -> & Hs & Hj)]]; cbn [bind].
    - reflexivity.
    - destruct (Z.leb_spec 400 (status_code r)), (Z.ltb_spec (status_code r) 600);
        try lia. reflexivity.
    - destruct (Z.leb_spec 400 (status_code r)), (Z.ltb_spec (status_code r) 600);
        cbn [andb bind]; try exact Hj. lia. }
  rewrite blank_location_str in Hb. apply negb_false_iff in Hb.
  rewrite call_on_latin1, Hb. unfold request_and_reduce. rewrite Hf. reflexivity.
Qed.

Lemma failed_request_returns_null_witness :
  get_weather_data (fun _ _ => Ok {| status_code := 404; json := Ok (PDict sample_body) |})
    (PStr "Oslo") (PInt 2)
  = ([EvGet (request_url "Oslo") 10; EvPrint (ErrorFetching RequestException)], Ok None).
Proof.
  apply (failed_request_returns_null
           (fun _ _ => Ok {| status_code := 404; json := Ok (PDict sample_body) |})
           "Oslo" (PInt 2) RequestException).
  - reflexivity.
  - right. left. eexists. split; [reflexivity |]. cbn. split; [lia | reflexivity].
Defined.

(** X2: an exception reaches the caller in two ways only.  Either it
    is the UnicodeEncodeError of a location whose stripped text holds a
    lone surrogate, raised before any request and any diagnostic; or it
    comes after the one GET, without a diagnostic, and is an
    AttributeError, a TypeError or an OverflowError (a KeyError being what
    slicing a dict raises in place of the TypeError from Python 3.12 on).
    A ValueError of a coercion, a ZeroDivisionError and an error of the
    request never escape. *)
Theorem escaping_exceptions_come_from_location_or_body
  net loc forecast_days tr e :
  get_weather_data net loc forecast_days = (tr, Raise e) ->
  (e = UnicodeEncodeError /\ tr = [] /\ encodable loc = false)
  \/ ((e = AttributeError \/ e = TypeError \/ e = KeyError \/ e = OverflowError)
      /\ exists text url,
           text_of loc = Some text /\ location_url text = Ok url
           /\ tr = [EvGet url 10]).
Proof.
  intros H.
  destruct (call_cases net loc forecast_days)
    as [[_ E] | [(text & e' & Ht & _ & Hu & E) | (text & url & Ht & _ & Hu & E)]];
    rewrite E in H; [discriminate | |].
  - injection H as <- <-. left.
    destruct (location_url_raises _ _ Hu) as [-> Hs].
    unfold encodable. rewrite Ht, Hs. auto.
  - right.
    destruct (reduce_ends net loc forecast_days url)
      as [[e' R] | [R | (r & R & Hr)]]; rewrite R in H; try discriminate.
    injection H as <- ->.
    destruct Hr as [[out Hr] | (e' & Hr & He)]; [discriminate |].
    injection Hr as <-.
    split; [destruct e; try discriminate; auto |].
    exists text, url. auto.
Qed.

Lemma escaping_exceptions_come_from_location_or_body_witness :
  (TypeError = UnicodeEncodeError
   /\ [EvGet "https://wttr.in/Bern?format=j1" 10] = []
   /\ encodable (PStr "Bern") = false)
  \/ ((TypeError = AttributeError \/ TypeError = TypeError
       \/ TypeError = KeyError \/ TypeError = OverflowError)
      /\ exists text url,
           text_of (PStr "Bern") = Some text /\ location_url text = Ok url
           /\ [EvGet "https://wttr.in/Bern?format=j1" 10] = [EvGet url 10]).
Proof.
  apply (escaping_exceptions_come_from_location_or_body
           (respond (PDict [("weather", PList [PDict [("hourly", PInt 3)]])]))
           (PStr "Bern") PNone).
  reflexivity.
Defined.

(** X3: every call ends in one of five ways: the invalid-location
    diagnostic and null, without a GET; a UnicodeEncodeError, without a GET
    or a diagnostic; one GET, the fetch diagnostic and null; one GET, the
    shape diagnostic and null; or one GET, no diagnostic and no null.  So
    at most one GET is issued, with timeout 10 and to the URL of the
    location, and a null return comes with exactly one diagnostic. *)
Theorem call_ends_in_one_of_five_ways net loc forecast_days :
  get_weather_data net loc forecast_days = ([EvPrint InvalidLocation], Ok None)
  \/ get_weather_data net loc forecast_days = ([], Raise UnicodeEncodeError)
  \/ exists text url,
       text_of loc = Some text /\ location_url text = Ok url
       /\ ((exists e,
              get_weather_data net loc forecast_days
              = ([EvGet url 10; EvPrint (ErrorFetching e)], Ok None))
           \/ get_weather_data net loc forecast_days
              = ([EvGet url 10; EvPrint UnexpectedShape], Ok None)
           \/ exists r,
                get_weather_data net loc forecast_days = ([EvGet url 10], r)
                /\ r <> Ok None).
Proof.
  destruct (call_cases net loc forecast_days)
    as [[_ E] | [(text & e & Ht & _ & Hu & E) | (text & url & Ht & _ & Hu & E)]].
  - left. exact E.
  - right. left. destruct (location_url_raises _ _ Hu) as [-> _]. exact E.
  - right. right. exists text, url. split; [exact Ht |]. split; [exact Hu |].
    rewrite E.
    destruct (reduce_ends net loc forecast_days url)
      as [[e R] | [R | (r & R & Hr)]].
    + left. eauto.
    + right. left. exact R.
    + right. right. exists r. split; [exact R |].
      destruct Hr as [[out ->] | (e & -> & _)]; discriminate.
Qed.

(** X10: a call returns a result exactly when the location is a
    non-blank string, the request succeeds with a body that is an object,
    its ["weather"] value is a non-empty list, and the selected first days
    are of the expected shape; the entries after them are never read. *)
Theorem call_returns_a_result_iff net (loc : pyval) forecast_days :
  (exists tr r, get_weather_data net loc forecast_days = (tr, Ok (Some r)))
  <-> exists s kvs days,
        loc = PStr s /\ blank_location loc = false
        /\ fetch net (request_url s) = Ok (PDict kvs)
        /\ Py.dict_get kvs "weather" = PList days /\ days <> []
        /\ Forall (fun d => daily_entry_ok d = true)
                  (firstn (resolved_days forecast_days (List.length days)) days).
Proof.
  split.
  - intros (tr & r & H).
    destruct (success_inv _ _ _ _ _ H)
      as (s & kvs & days & fc & -> & Hs & Hf & Hw & Hne & _ & Hfc & _).
    exists s, kvs, days. repeat (split; [assumption || reflexivity |]).
    split; [rewrite blank_location_str, Hs; reflexivity |].
    repeat (split; [assumption |]).
    apply mapM_ok_Forall2 in Hfc.
    induction Hfc as [| d out ds outs Hd _ IH]; constructor; [| exact IH].
    apply daily_entry_ok_iff. eauto.
  - intros (s & kvs & days & -> & Hb & Hf & Hw & Hne & Hok).
    rewrite blank_location_str in Hb. apply negb_false_iff in Hb.
    rewrite (call_on_days net s forecast_days kvs days Hb Hf Hw Hne).
    destruct (days_reduce _ Hok) as [fc ->]. cbn [bind]. eauto.
Qed.

(** X11: how the loop body ends on any daily entry: AttributeError for
    an entry that is no object, for an hourly value that is text or an
    object, and for an hourly list with an element that is no object;
    TypeError for any other hourly value that is no list; OverflowError
    when the humidity mean reaches 2^1024 - 2^970 in magnitude; and the
    aggregated day otherwise. *)
Theorem loop_body_ends_as_classified day :
  aggregate_day day
  = match day_failure day with
    | Some e => Raise e
    | None => Ok (summary day (hourly_entries day))
    end.
Proof. exact (aggregate_day_outcome day). Qed.

Section StripFacts.
Import Text.


Lemma lstrip_fixed sp c s : sp c = false -> lstrip sp (String c s) = String c s.
Proof. intros H. cbn. rewrite H. reflexivity. Qed.


Lemma rstrip_head sp c s :
  sp c = false -> exists t, rstrip sp (String c s) = String c t.
Proof.
  intros Hc. cbn [rstrip]. destruct (rstrip sp s); [rewrite Hc |]; eauto.
Qed.


End StripFacts.




Section UrlFacts.
Import Text Url.

Lemma all_chars_app p a b : all_chars p (a ++ b) = all_chars p a && all_chars p b.
Proof.
  induction a as [| c a IH]; cbn; [reflexivity |]. rewrite IH. apply andb_assoc.
Qed.





Lemma all_chars_weaken (p q : ascii -> bool) s :
  (forall c, p c = true -> q c = true) -> all_chars p s = true -> all_chars q s = true.
Proof.
  intros Hpq. induction s as [| c s IH]; cbn; [reflexivity |].
  intros H. apply andb_prop in H as [Hc Hs]. rewrite (Hpq c Hc), (IH Hs). reflexivity.
Qed.

Lemma quote_safe_text s : all_chars safe_char s = true -> quote_latin1 s = s.
Proof.
  induction s as [| c s IH]; [reflexivity |].
  cbn [all_chars]. intros H. apply andb_prop in H as [Hc Hs].
  cbn [quote_latin1]. rewrite (IH Hs). unfold utf8.
  assert (Hlt : code c < 128).
  { unfold safe_char, is_safe in Hc.
    repeat rewrite orb_true_iff in Hc. repeat rewrite andb_true_iff in Hc.
    repeat rewrite Z.leb_le in Hc. repeat rewrite Z.eqb_eq in Hc. lia. }
  destruct (Z.ltb_spec (code c) 128); [| lia].
  cbn [map String.concat]. unfold quote_byte. unfold safe_char in Hc. rewrite Hc.
  unfold code. rewrite N2Z.id, ascii_N_embedding. reflexivity.
Qed.

End UrlFacts.


(** X6: a location whose trimmed text is made of letters, digits and
    [_ . - ~ /] is embedded in the request URL as it is. *)
Theorem safe_location_is_embedded_as_it_is s :
  all_chars safe_char (Text.strip s) = true ->
  request_url s = "https://wttr.in/" ++ Text.strip s ++ "?format=j1".
Proof.
  intros H. unfold request_url. rewrite (quote_safe_text _ H). reflexivity.
Qed.

Lemma safe_location_is_embedded_as_it_is_witness :
  request_url " Sao_Paulo/BR " = "https://wttr.in/" ++ Text.strip " Sao_Paulo/BR " ++ "?format=j1".
Proof.
  apply (safe_location_is_embedded_as_it_is " Sao_Paulo/BR "). reflexivity.
Defined.

(** X7: [_safe_int] gives back a Python int, and reads the decimal text
    of an int as that int, exactly when the int has at most 4300 digits
    (is below 10^4300 in magnitude); on an int with more digits, and on
    its text, it returns None, the conversion between int and text being
    refused. *)
Theorem safe_int_reads_back_ints_within_the_digit_limit z :
  _safe_int (PInt z)
  = (if Z.abs z <? 10 ^ Text.int_max_str_digits then Some z else None)
  /\ _safe_int (PStr (Text.signed_decimal z))
     = (if Z.abs z <? 10 ^ Text.int_max_str_digits then Some z else None).
Proof.
  split; [apply safe_int_of_int |].
  unfold _safe_int. cbn [Py.str bind]. rewrite parse_signed_decimal.
  destruct (Z.abs z <? 10 ^ Text.int_max_str_digits); reflexivity.
Qed.




Lemma mapM_firstn {A B} (f : A -> res B) l r k :
  mapM f l = Ok r -> mapM f (firstn k l) = Ok (firstn k r).
Proof.
  revert r k. induction l as [| x xs IH]; intros r k H.
  - cbn in H. injection H as <-. destruct k; reflexivity.
  - cbn [mapM] in H. bind_inv H y Hy. bind_inv H ys Hys. injection H as <-.
    destruct k as [| k]; [reflexivity |].
    cbn [firstn mapM]. rewrite Hy. cbn [bind]. rewrite (IH ys k Hys). reflexivity.
Qed.

(** X9: when a call returns a result, a call with a day count that
    resolves to no more days returns a result too, with the same events and
    location, and its forecast is a prefix of the other forecast. *)
Theorem smaller_count_gives_a_prefix net loc fd1 fd2 tr r2 :
  get_weather_data net loc fd2 = (tr, Ok (Some r2)) ->
  requested_days fd1 <= requested_days fd2 ->
  exists r1,
    get_weather_data net loc fd1 = (tr, Ok (Some r1))
    /\ location r1 = location r2
    /\ forecast r1 = firstn (List.length (forecast r1)) (forecast r2)
    /\ (List.length (forecast r1) <= List.length (forecast r2))%nat.
Proof.
  intros H Hle.
  destruct (call_cases net loc fd2)
    as [[_ E] | [(text & e & _ & _ & _ & E) | (text & url & Ht & Hb & Hu & E)]];
    rewrite E in H; try discriminate.
  destruct (reduce_success_inv _ _ _ _ _ _ H)
    as (kvs & days & fc & Hf & Hw & Hne & -> & Hfc & ->).
  assert (E1 : get_weather_data net loc fd1 = request_and_reduce net loc fd1 url).
  { destruct (call_cases net loc fd1)
      as [[Hb' _] | [(t' & e' & Ht' & _ & Hu' & _) | (t' & u' & Ht' & _ & Hu' & E')]];
      [congruence | congruence |].
    assert (t' = text) by congruence. subst t'.
    assert (u' = url) by congruence. subst u'. exact E'. }
  set (k1 := resolved_days fd1 (List.length days)).
  set (k2 := resolved_days fd2 (List.length days)) in *.
  assert (Hk : (k1 <= k2)%nat) by (unfold k1, k2, resolved_days; lia).
  pose proof (mapM_firstn aggregate_day _ _ k1 Hfc) as H1.
  rewrite firstn_firstn, Nat.min_l in H1 by exact Hk.
  exists {| location := loc; forecast := firstn k1 fc |}.
  rewrite E1, (reduce_on_days net loc fd1 url kvs days Hf Hw Hne). fold k1. rewrite H1.
  cbn [bind location forecast].
  assert (Hlen : List.length fc = k2).
  { apply mapM_ok_Forall2, Forall2_length in Hfc. rewrite <- Hfc, length_firstn.
    assert (1 <= List.length days)%nat by (destruct days; [congruence | cbn; lia]).
    pose proof (resolved_days_bounds fd2 (List.length days) ltac:(lia)) as Hb2.
    fold k2 in Hb2. lia. }
  rewrite length_firstn, Hlen, Nat.min_l by exact Hk.
  repeat split; lia.
Qed.

Lemma smaller_count_gives_a_prefix_witness :
  exists r1,
    get_weather_data (respond (PDict sample_body)) (PStr "Kyoto") (PInt 1)
    = ([EvGet (request_url "Kyoto") 10], Ok (Some r1))
    /\ location r1
       = location {| location := PStr "Kyoto";
                     forecast := [summary sample_day sample_hourly;
                                  summary sample_day sample_hourly] |}
    /\ forecast r1
       = firstn (List.length (forecast r1))
           (forecast {| location := PStr "Kyoto";
                        forecast := [summary sample_day sample_hourly;
                                     summary sample_day sample_hourly] |})
    /\ (List.length (forecast r1)
        <= List.length
             (forecast {| location := PStr "Kyoto";
                          forecast := [summary sample_day sample_hourly;
                                       summary sample_day sample_hourly] |}))%nat.
Proof.
  apply (smaller_count_gives_a_prefix
           (respond (PDict sample_body)) (PStr "Kyoto") (PInt 1) (PInt 2)).
  - vm_compute. reflexivity.
  - vm_compute. discriminate.
Defined.

Lemma sum_acc l : forall a, fold_left Z.add l a = a + Py.sum l.
Proof.
  unfold Py.sum. induction l as [| x l IH]; intros a; cbn [fold_left]; [lia |].
  rewrite (IH (a + x)), (IH (0 + x)). lia.
Qed.

Lemma sum_cons x l : Py.sum (x :: l) = x + Py.sum l.
Proof. unfold Py.sum at 1. cbn [fold_left]. rewrite sum_acc. lia. Qed.

Lemma sum_bounds lo hi zs :
  Forall (fun z => lo <= z <= hi) zs ->
  lo * Z.of_nat (List.length zs) <= Py.sum zs <= hi * Z.of_nat (List.length zs).
Proof.
  induction 1 as [| z zs Hz _ IH]; [cbn; lia |].
  rewrite sum_cons. cbn [List.length]. lia.
Qed.

(** X12: for a daily entry of the expected shape with at least one valid
    humidity reading, all readings between [lo] and [hi] and their sum
    below 2^52 in magnitude, the output humidity lies between [lo] and
    [hi] as well (percentages stay percentages). *)
Theorem humidity_lies_between_the_readings day hs lo hi :
  is_dict day = true ->
  hourly_of day = PList hs ->
  forallb is_dict hs = true ->
  valid_readings "humidity" hs <> [] ->
  Forall (fun z => lo <= z <= hi) (valid_readings "humidity" hs) ->
  Z.abs (Py.sum (valid_readings "humidity" hs)) < 2 ^ 52 ->
  exists out k,
    aggregate_day day = Ok out /\ humidity out = Some k /\ lo <= k <= hi.
Proof.
  intros Hd Hh Hhs Hne Hall Hsum.
  assert (Hok : daily_entry_ok day = true).
  { unfold daily_entry_ok. rewrite Hd, Hh, Hhs. cbn [andb].
    apply mean_fits_small. exact Hsum. }
  destruct (aggregate_day_ok day Hok) as (hs' & Hh' & Ha).
  assert (hs' = hs) by congruence. subst hs'.
  pose proof (sum_bounds lo hi _ Hall) as Hb.
  unfold summary in Ha.
  destruct (valid_readings "humidity" hs) as [| z zs] eqn:E; [congruence |].
  set (n := Z.of_nat (List.length (z :: zs))) in *.
  assert (Hn : 0 < n) by (subst n; cbn [List.length]; lia).
  destruct (true_divide_exact (Py.sum (z :: zs)) n Hn Hsum) as (q & Hq & Hr).
  rewrite Hq in Ha. cbn [try_or_none option_map] in Ha.
  eexists. exists (py_round q). split; [exact Ha |]. split; [reflexivity |].
  rewrite Hr. split.
  - apply round_half_even_ge; lia.
  - apply round_half_even_le; lia.
Qed.

Lemma humidity_lies_between_the_readings_witness :
  exists out k,
    aggregate_day sample_day = Ok out /\ humidity out = Some k /\ 0 <= k <= 100.
Proof.
  apply (humidity_lies_between_the_readings sample_day sample_hourly 0 100).
  - reflexivity.
  - reflexivity.
  - reflexivity.
  - vm_compute. discriminate.
  - vm_compute. repeat constructor; discriminate.
  - vm_compute. reflexivity.
Defined.

Section OrderFacts.

Lemma valid_readings_cons key h hs :
  valid_readings key (h :: hs)
  = (valid_readings key [h] ++ valid_readings key hs)%list.
Proof.
  unfold valid_readings, present, coercible. cbn [map filter].
  destruct (negb (Py.is_none (field key h))); cbn [map Py.not_none app]; [| reflexivity].
  destruct (_safe_int (field key h)); reflexivity.
Qed.

Lemma valid_readings_perm key hs hs' :
  Permutation hs hs' -> Permutation (valid_readings key hs) (valid_readings key hs').
Proof.
  induction 1 as [| h l l' _ IH | h h' l | l l' l'' _ IH1 _ IH2].
  - constructor.
  - rewrite (valid_readings_cons key h l), (valid_readings_cons key h l').
    apply Permutation_app_head. exact IH.
  - rewrite (valid_readings_cons key h' (h :: l)), (valid_readings_cons key h l),
      (valid_readings_cons key h (h' :: l)), (valid_readings_cons key h' l).
    rewrite !app_assoc. apply Permutation_app_tail. apply Permutation_app_comm.
  - eapply Permutation_trans; eassumption.
Qed.

Lemma forallb_perm {A} (p : A -> bool) l l' :
  Permutation l l' -> forallb p l = forallb p l'.
Proof.
  induction 1 as [| x l l' _ IH | x y l | l l' l'' _ IH1 _ IH2]; cbn.
  - reflexivity.
  - rewrite IH. reflexivity.
  - destruct (p x), (p y); reflexivity.
  - congruence.
Qed.

Lemma sum_perm l l' : Permutation l l' -> Py.sum l = Py.sum l'.
Proof.
  induction 1 as [| x l l' _ IH | x y l | l l' l'' _ IH1 _ IH2];
    rewrite ?sum_cons; lia.
Qed.

Lemma max_perm w rest w' rest' :
  Permutation (w :: rest) (w' :: rest') -> Py.max w rest = Py.max w' rest'.
Proof.
  intros H.
  destruct (max_spec_list rest w) as [Hin Hall].
  destruct (max_spec_list rest' w') as [Hin' Hall'].
  rewrite Forall_forall in Hall, Hall'.
  pose proof (Hall' _ (Permutation_in _ H Hin)).
  pose proof (Hall _ (Permutation_in _ (Permutation_sym H) Hin')).
  lia.
Qed.

End OrderFacts.

(** X13: the order of the hourly entries does not matter: two daily
    entries with the same date, temperature and precipitation fields whose
    hourly lists are permutations of each other reduce to the same output,
    or raise the same exception. *)
Theorem hourly_order_does_not_matter kvs kvs' hs hs' :
  Py.dict_get kvs "date" = Py.dict_get kvs' "date" ->
  Py.dict_get kvs "avgtempC" = Py.dict_get kvs' "avgtempC" ->
  Py.dict_get kvs "totalprecipMM" = Py.dict_get kvs' "totalprecipMM" ->
  hourly_of (PDict kvs) = PList hs ->
  hourly_of (PDict kvs') = PList hs' ->
  Permutation hs hs' ->
  aggregate_day (PDict kvs) = aggregate_day (PDict kvs').
Proof.
  intros Hdate Htemp Hprec Hh Hh' H. rewrite !aggregate_day_outcome.
  unfold day_failure, hourly_entries, summary. rewrite Hh, Hh'.
  cbn [is_dict negb field].
  rewrite (forallb_perm is_dict hs hs' H).
  pose proof (valid_readings_perm "humidity" hs hs' H) as Ph.
  pose proof (valid_readings_perm "windspeedKmph" hs hs' H) as Pw.
  assert (Hm : mean_fits (valid_readings "humidity" hs)
               = mean_fits (valid_readings "humidity" hs')).
  { unfold mean_fits. rewrite (sum_perm _ _ Ph), (Permutation_length Ph).
    destruct (valid_readings "humidity" hs) as [| z zs];
      destruct (valid_readings "humidity" hs') as [| z' zs']; try reflexivity.
    - apply Permutation_nil in Ph. discriminate.
    - apply Permutation_sym, Permutation_nil in Ph. discriminate. }
  rewrite Hm.
  destruct (negb (forallb is_dict hs')); [reflexivity |].
  destruct (mean_fits (valid_readings "humidity" hs')); [| reflexivity].
  f_equal.
  rewrite Hdate, Htemp, Hprec.
  f_equal.
  - destruct (valid_readings "humidity" hs) as [| z zs];
      destruct (valid_readings "humidity" hs') as [| z' zs']; try reflexivity.
    + apply Permutation_nil in Ph. discriminate.
    + apply Permutation_sym, Permutation_nil in Ph. discriminate.
    + rewrite (sum_perm _ _ Ph), (Permutation_length Ph). reflexivity.
  - destruct (valid_readings "windspeedKmph" hs) as [| w ws];
      destruct (valid_readings "windspeedKmph" hs') as [| w' ws']; try reflexivity.
    + apply Permutation_nil in Pw. discriminate.
    + apply Permutation_sym, Permutation_nil in Pw. discriminate.
    + f_equal. apply max_perm. exact Pw.
Qed.

Lemma hourly_order_does_not_matter_witness :
  aggregate_day (PDict [("hourly", PList sample_hourly); ("date", PStr "d")])
  = aggregate_day (PDict [("hourly", PList (rev sample_hourly)); ("date", PStr "d")]).
Proof.
  apply (hourly_order_does_not_matter
           [("hourly", PList sample_hourly); ("date", PStr "d")]
           [("hourly", PList (rev sample_hourly)); ("date", PStr "d")]
           sample_hourly (rev sample_hourly)).
  - reflexivity.
  - reflexivity.
  - reflexivity.
  - reflexivity.
  - reflexivity.
  - apply Permutation_rev.
Defined.

Section FloatLiteralFacts.
Import Text FloatLiteral.

Lemma float_parse_rejects_bracket c rest :
  c = "["%char \/ c = "{"%char ->
  parse (String c rest) = Raise ValueError.
Proof.
  intros Hc. unfold parse.
  assert (Hsp : is_numeric_space c = false) by (destruct Hc; subst; reflexivity).
  rewrite lstrip_fixed by exact Hsp.
  destruct (rstrip_head is_numeric_space c rest Hsp) as [t ->].
  assert (Hd : drop_underscores "000" (String c t)
               = option_map (String c) (drop_underscores c t))
    by (destruct Hc; subst; reflexivity).
  rewrite Hd. destruct (drop_underscores c t) as [t' |]; [| reflexivity].
  destruct Hc; subst; reflexivity.
Qed.

Lemma drop_underscores_digits s : forall prev,
  Ascii.eqb prev "_" = false -> all_digits s = true ->
  drop_underscores prev s = Some s.
Proof.
  induction s as [| c s IH]; intros prev Hp Hd; cbn [drop_underscores].
  - rewrite Hp. reflexivity.
  - cbn [all_digits] in Hd. apply andb_prop in Hd as [Hc Hs].
    rewrite (digit_not_underscore c Hc), Hp. cbn [andb].
    rewrite (IH c (digit_not_underscore c Hc) Hs). reflexivity.
Qed.

Lemma take_digits_all s : forall acc n,
  all_digits s = true ->
  take_digits acc n s = (digits_value acc s, n + Z.of_nat (String.length s), "").
Proof.
  induction s as [| c s IH]; intros acc n Hd; cbn [take_digits digits_value String.length].
  - f_equal. f_equal. lia.
  - cbn [all_digits] in Hd. apply andb_prop in Hd as [Hc Hs].
    unfold digit_value. rewrite Hc. rewrite (IH _ _ Hs). f_equal. f_equal. lia.
Qed.

Lemma lowercase_digits s : all_digits s = true -> lowercase s = s.
Proof.
  induction s as [| c s IH]; cbn [all_digits lowercase]; [reflexivity |].
  intros H. apply andb_prop in H as [Hc Hs]. rewrite (IH Hs). f_equal.
  unfold lower. unfold is_digit, in_range in *.
  apply andb_prop in Hc as [H1 H2]. apply Z.leb_le in H1, H2.
  destruct (Z.leb_spec 65 (code c)); [lia | reflexivity].
Qed.

Lemma unsigned_digits neg s :
  s <> "" -> all_digits s = true ->
  unsigned neg s = Some (PyFloat.of_decimal neg (Z.to_N (digits_value 0 s)) 0).
Proof.
  intros Hne Hd. unfold unsigned. rewrite (lowercase_digits s Hd).
  destruct s as [| c s]; [congruence |].
  assert (Hc : is_digit c = true) by (cbn in Hd; apply andb_prop in Hd; tauto).
  assert (Hi : Ascii.eqb c "i" = false)
    by (destruct (Ascii.eqb_spec c "i") as [-> |]; [discriminate | reflexivity]).
  assert (Hn : Ascii.eqb c "n" = false)
    by (destruct (Ascii.eqb_spec c "n") as [-> |]; [discriminate | reflexivity]).
  cbn [String.eqb]. rewrite Hi, Hn. cbn [orb].
  unfold number. rewrite (take_digits_all _ 0 0 Hd).
  cbn [String.length]. cbn [exponent].
  destruct (Z.eqb_spec (0 + Z.of_nat (S (String.length s)) + 0) 0) as [E | _]; [lia |].
  reflexivity.
Qed.

Lemma parse_decimal_text n :
  0 <= n -> parse (decimal n) = Ok (PyFloat.of_decimal false (Z.to_N n) 0).
Proof.
  intros Hn. destruct (decimal_spec n Hn) as (Hne & Hall & Hval).
  unfold parse. rewrite strip_digits by (auto using digit_no_space).
  rewrite drop_underscores_digits by (reflexivity || exact Hall).
  unfold signed. destruct (decimal n) as [| c s] eqn:E; [congruence |].
  assert (Hc : is_digit c = true) by (cbn in Hall; apply andb_prop in Hall; tauto).
  destruct (digit_no_sign c Hc) as [-> ->].
  rewrite unsigned_digits by (congruence || exact Hall). rewrite Hval. reflexivity.
Qed.

Lemma parse_negative_text n :
  0 <= n ->
  parse (String "-" (decimal n)) = Ok (PyFloat.of_decimal true (Z.to_N n) 0).
Proof.
  intros Hn. destruct (decimal_spec n Hn) as (Hne & Hall & Hval).
  unfold parse. rewrite lstrip_fixed by reflexivity.
  assert (R : rstrip is_numeric_space (String "-" (decimal n)) = String "-" (decimal n)).
  { pose proof (strip_digits is_numeric_space (decimal n) digit_no_space Hne Hall) as S.
    destruct (decimal n) as [| c s] eqn:E; [congruence |].
    assert (Hc : is_digit c = true) by (cbn in Hall; apply andb_prop in Hall; tauto).
    rewrite lstrip_fixed in S by (apply digit_no_space; exact Hc).
    cbn [rstrip] in S |- *.
    destruct (rstrip is_numeric_space s) as [| d r].
    - rewrite (digit_no_space c Hc) in S |- *. rewrite S. reflexivity.
    - rewrite S. reflexivity. }
  rewrite R. cbn [drop_underscores]. change (Ascii.eqb "-" "_") with false.
  change (Ascii.eqb "000" "_") with false. cbn [andb].
  rewrite drop_underscores_digits by (reflexivity || exact Hall).
  cbn [option_map signed]. change (Ascii.eqb "-" "+") with false.
  change (Ascii.eqb "-" "-") with true. cbn iota.
  rewrite unsigned_digits by assumption. rewrite Hval. reflexivity.
Qed.

End FloatLiteralFacts.

Lemma repr_list_head l :
  (exists e, Py.repr (PList l) = Raise e)
  \/ exists t, Py.repr (PList l) = Ok (String "[" t).
Proof.
  cbn [Py.repr]. match goal with |- context [bind ?m _] => destruct m end;
    cbn [bind]; [right | left]; eexists; reflexivity.
Qed.

Lemma repr_dict_head d :
  (exists e, Py.repr (PDict d) = Raise e)
  \/ exists t, Py.repr (PDict d) = Ok (String "{" t).
Proof.
  cbn [Py.repr]. match goal with |- context [bind ?m _] => destruct m end;
    cbn [bind]; [right | left]; eexists; reflexivity.
Qed.

(** X14: null, booleans, arrays and objects never coerce: [_safe_int]
    and [_safe_float] both return None on them. *)
Theorem only_numbers_and_text_coerce v :
  no_number_or_text v = true -> _safe_int v = None /\ _safe_float v = None.
Proof.
  intros H. unfold _safe_int, _safe_float, Py.float_of_str.
  destruct v as [| b | z | f | s | l | d]; try discriminate.
  - split; reflexivity.
  - destruct b; split; reflexivity.
  - cbn [Py.str]. destruct (repr_list_head l) as [[e ->] | [t ->]];
      [split; reflexivity |]. cbn [bind].
    rewrite (parse_rejects "[" (String "[" t)) by reflexivity.
    rewrite float_parse_rejects_bracket by auto. split; reflexivity.
  - cbn [Py.str]. destruct (repr_dict_head d) as [[e ->] | [t ->]];
      [split; reflexivity |]. cbn [bind].
    rewrite (parse_rejects "{" (String "{" t)) by reflexivity.
    rewrite float_parse_rejects_bracket by auto. split; reflexivity.
Qed.

Lemma only_numbers_and_text_coerce_witness :
  _safe_int (PList [PInt 7]) = None /\ _safe_float (PList [PInt 7]) = None.
Proof.
  apply (only_numbers_and_text_coerce (PList [PInt 7])). reflexivity.
Defined.

(** X15: on a Python int of at most 4300 digits (below 10^4300 in
    magnitude) [_safe_float] returns the float its decimal text denotes,
    never None; on an int with more digits it returns None, because
    [str] refuses the conversion. *)
Theorem safe_float_keeps_ints_within_the_digit_limit z :
  _safe_float (PInt z)
  = if Z.abs z <? 10 ^ Text.int_max_str_digits
    then Some (PyFloat.of_decimal (z <? 0) (Z.to_N (Z.abs z)) 0)
    else None.
Proof.
  unfold _safe_float, Py.float_of_str. cbn [Py.str Py.repr].
  rewrite int_repr_spec.
  destruct (Z.abs z <? 10 ^ Text.int_max_str_digits); [| reflexivity].
  cbn [bind]. unfold Text.signed_decimal.
  destruct (Z.ltb_spec z 0) as [Hneg | Hpos].
  - rewrite parse_negative_text by lia. rewrite (Z.abs_neq z) by lia. reflexivity.
  - rewrite parse_decimal_text by lia. rewrite (Z.abs_eq z) by lia. reflexivity.
Qed.

Section DecimalTextFacts.
Import Text FloatLiteral.

Lemma plain_char_facts c :
  plain_char c = true ->
  is_numeric_space c = false /\ Ascii.eqb c "_" = false /\ lower c = c.
Proof.
  unfold plain_char. intros H. apply orb_prop in H as [H | H].
  - split; [apply digit_no_space; exact H |].
    split; [apply digit_not_underscore; exact H |].
    unfold lower. unfold is_digit, in_range in *.
    apply andb_prop in H as [H1 H2]. apply Z.leb_le in H1, H2.
    destruct (Z.leb_spec 65 (code c)); [lia | reflexivity].
  - apply Ascii.eqb_eq in H as ->. repeat split; reflexivity.
Qed.

Lemma strip_clean sp s :
  all_chars (fun c => negb (sp c)) s = true -> rstrip sp (lstrip sp s) = s.
Proof.
  intros H.
  assert (L : lstrip sp s = s).
  { destruct s as [| c s]; [reflexivity |]. cbn in H |- *.
    apply andb_prop in H as [Hc _]. apply negb_true_iff in Hc. rewrite Hc. reflexivity. }
  rewrite L. clear L.
  induction s as [| c s IH]; [reflexivity |].
  cbn in H |- *. apply andb_prop in H as [Hc Hs]. apply negb_true_iff in Hc.
  rewrite (IH Hs). destruct s; [rewrite Hc |]; reflexivity.
Qed.

Lemma drop_underscores_clean s : forall prev,
  Ascii.eqb prev "_" = false ->
  all_chars (fun c => negb (Ascii.eqb c "_")) s = true ->
  drop_underscores prev s = Some s.
Proof.
  induction s as [| c s IH]; intros prev Hp Hd; cbn [drop_underscores].
  - rewrite Hp. reflexivity.
  - cbn [all_chars] in Hd. apply andb_prop in Hd as [Hc Hs]. apply negb_true_iff in Hc.
    rewrite Hc, Hp. cbn [andb]. rewrite (IH c Hc Hs). reflexivity.
Qed.

Lemma lowercase_clean s :
  all_chars (fun c => Ascii.eqb (lower c) c) s = true -> lowercase s = s.
Proof.
  induction s as [| c s IH]; cbn [all_chars lowercase]; [reflexivity |].
  intros H. apply andb_prop in H as [Hc Hs]. apply Ascii.eqb_eq in Hc.
  rewrite Hc, (IH Hs). reflexivity.
Qed.

Lemma all_digits_chars s : all_digits s = all_chars is_digit s.
Proof. induction s as [| c s IH]; cbn; [reflexivity |]. rewrite IH. reflexivity. Qed.

Lemma take_digits_point a b : forall acc n,
  all_digits a = true ->
  take_digits acc n (a ++ String "." b)
  = (digits_value acc a, n + Z.of_nat (String.length a), String "." b).
Proof.
  induction a as [| c a IH]; intros acc n Hd;
    cbn [take_digits digits_value String.length append].
  - change (digit_value ".") with (@None Z). cbn iota. f_equal. f_equal. lia.
  - cbn [all_digits] in Hd. apply andb_prop in Hd as [Hc Hs].
    unfold digit_value. rewrite Hc. rewrite (IH _ _ Hs). f_equal. f_equal. lia.
Qed.

Lemma parse_plain_decimal a b :
  a <> "" -> all_digits a = true -> all_digits b = true ->
  parse (a ++ String "." b)
  = Ok (PyFloat.of_decimal false (Z.to_N (digits_value (digits_value 0 a) b))
          (- Z.of_nat (String.length b))).
Proof.
  intros Hne Ha Hb.
  assert (Hp : all_chars plain_char (a ++ String "." b) = true).
  { rewrite all_chars_app. cbn [all_chars]. rewrite all_digits_chars in Ha, Hb.
    rewrite (all_chars_weaken is_digit plain_char a), (all_chars_weaken is_digit plain_char b);
      try assumption; try reflexivity;
      intros c Hc; unfold plain_char; rewrite Hc; reflexivity. }
  unfold parse.
  rewrite strip_clean
    by (apply (all_chars_weaken plain_char); [| exact Hp];
        intros c Hc; destruct (plain_char_facts c Hc) as (-> & _); reflexivity).
  rewrite drop_underscores_clean
    by (reflexivity || (apply (all_chars_weaken plain_char); [| exact Hp];
        intros c Hc; destruct (plain_char_facts c Hc) as (_ & -> & _); reflexivity)).
  destruct a as [| c a]; [congruence |].
  assert (Hc : is_digit c = true) by (cbn in Ha; apply andb_prop in Ha; tauto).
  cbn [append]. unfold signed. destruct (digit_no_sign c Hc) as [-> ->].
  unfold unsigned.
  rewrite lowercase_clean
    by (apply (all_chars_weaken plain_char); [| exact Hp];
        intros d Hd; destruct (plain_char_facts d Hd) as (_ & _ & ->);
        apply Ascii.eqb_refl).
  assert (Hi : Ascii.eqb c "i" = false)
    by (destruct (Ascii.eqb_spec c "i") as [-> |]; [discriminate | reflexivity]).
  assert (Hn : Ascii.eqb c "n" = false)
    by (destruct (Ascii.eqb_spec c "n") as [-> |]; [discriminate | reflexivity]).
  cbn [String.eqb]. rewrite Hi, Hn. cbn [orb].
  unfold number.
  change (String c (a ++ String "." b)) with (String c a ++ String "." b).
  rewrite (take_digits_point (String c a) b 0 0 Ha).
  change (Ascii.eqb "." ".") with true. cbn iota.
  rewrite (take_digits_all b _ 0 Hb).
  cbn [String.length exponent].
  destruct (Z.eqb_spec (0 + Z.of_nat (S (String.length a)) + (0 + Z.of_nat (String.length b))) 0)
    as [E | _]; [lia |].
  replace (0 - (0 + Z.of_nat (String.length b))) with (- Z.of_nat (String.length b)) by lia.
  reflexivity.
Qed.

End DecimalTextFacts.

(** X16: [_safe_float] reads plain decimal text, digits, a point and
    digits, as the float with those digits as mantissa and minus the
    number of fraction digits as decimal exponent. *)
Theorem safe_float_reads_plain_decimal_text a b :
  a <> "" -> all_digits a = true -> all_digits b = true ->
  _safe_float (PStr (a ++ String "." b))
  = Some (PyFloat.of_decimal false (Z.to_N (digits_value (digits_value 0 a) b))
            (- Z.of_nat (String.length b))).
Proof.
  intros Hne Ha Hb. unfold _safe_float, Py.float_of_str. cbn [Py.str bind].
  rewrite parse_plain_decimal by assumption. reflexivity.
Qed.

Lemma safe_float_reads_plain_decimal_text_witness :
  _safe_float (PStr ("12" ++ String "." "75"))
  = Some (PyFloat.of_decimal false (Z.to_N (digits_value (digits_value 0 "12") "75"))
            (- Z.of_nat (String.length "75"))).
Proof.
  apply (safe_float_reads_plain_decimal_text "12" "75").
  - discriminate.
  - reflexivity.
  - reflexivity.
Defined.
